(** * Field-stream normalisation of the UIA Word document support

    A shallow embedding of [source/NVDAObjects/UIA/wordDocument.py]
    (the [WordDocumentTextInfo] overrides) and of
    [source/_UIACustomAnnotations.py], together with the properties that
    the design document states about them.

    Python objects that are mutated through several references (the
    [ControlField] and [FormatField] dictionaries carried by the field
    commands of a stream) live in an explicit store and are referred to by
    address, so that [x is y] is equality of addresses. *)

From Stdlib Require Import ZArith String Ascii.
From stdpp Require Import base option list gmap strings.

Local Open Scope string_scope.
Local Open Scope list_scope.
Local Open Scope Z_scope.

(** ** Python values held in field dictionaries *)

Inductive pyval :=
| PNone
| PBool (b : bool)
| PInt (z : Z)
| PStr (s : string)
| PTuple (t : list Z).

#[global] Instance pyval_eq_dec : EqDecision pyval.
Proof. solve_decision. Defined.

(** Python's [==] on these values: [bool] is a subclass of [int], so
    [True == 1] and [False == 0]; values of different kinds are otherwise
    unequal. *)
Definition py_eq (v w : pyval) : bool :=
  match v, w with
  | PNone, PNone => true
  | PBool a, PBool b => bool_decide (a = b)
  | PBool a, PInt z => bool_decide (z = if a then 1 else 0)
  | PInt z, PBool a => bool_decide (z = if a then 1 else 0)
  | PInt a, PInt b => bool_decide (a = b)
  | PStr a, PStr b => bool_decide (a = b)
  | PTuple a, PTuple b => bool_decide (a = b)
  | _, _ => false
  end.

(** Python truthiness ([if v:], [not v]). *)
Definition py_truthy (v : pyval) : bool :=
  match v with
  | PNone => false
  | PBool b => b
  | PInt z => negb (bool_decide (z = 0))
  | PStr s => negb (bool_decide (s = EmptyString))
  | PTuple t => negb (bool_decide (t = []))
  end.

(** A [dict] with string keys; [ControlField] and [FormatField] are
    subclasses of [dict]. *)
Abbreviation dict := (gmap string pyval).

(** [d.get(k)]: the value, or [None] when the key is absent. *)
Definition dict_get (d : dict) (k : string) : pyval := default PNone (d !! k).

(** Modelled from the spec: [controlTypes.Role] is not part of the excerpt;
    the spec names the role [listitem].  In NVDA it is the member
    [LISTITEM = 15] of an integer enumeration. *)
Definition Role_LISTITEM : pyval := PInt 15.

(** ** Exceptions and results *)

Inductive exn := KeyError | TypeError | AttributeError | IndexError.

Inductive result (A : Type) :=
| Ok (a : A)
| Raise (e : exn).
Arguments Ok {A} a.
Arguments Raise {A} e.

#[global] Instance result_bind : MBind result := λ A B k r,
  match r with
  | Ok a => k a
  | Raise e => Raise e
  end.

(** ** The store of field objects and the field stream *)

Abbreviation loc := nat.

(** The [ControlField] and the [FormatField] objects reachable from a
    stream.  An address the store does not hold cannot arise in Python; it
    reads as an empty mapping. *)
Record store := Store {
  controlFields : gmap loc dict;
  formatFields : gmap loc dict
}.

Definition controlField (σ : store) (c : loc) : dict := controlFields σ !!! c.
Definition formatField (σ : store) (f : loc) : dict := formatFields σ !!! f.

(** [field[k] = v] on the [FormatField] at address [f]. *)
Definition formatField_setitem (f : loc) (k : string) (v : pyval) (σ : store) : store :=
  Store (controlFields σ) (<[f := <[k := v]> (formatField σ f)]> (formatFields σ)).

(** Modelled from the spec: [textInfos.FieldCommand] is declared outside
    the excerpt.  A command is a tagged variant of the kinds controlStart,
    controlEnd and formatChange; controlStart carries a [ControlField],
    formatChange a [FormatField], controlEnd the [ControlField] of the
    control it closes or [None].  The remaining elements of a stream are
    plain [str] text. *)
Inductive item :=
| Text (s : string)
| ControlStart (c : loc)
| ControlEnd (c : option loc)
| FormatChange (f : loc).

#[global] Instance item_eq_dec : EqDecision item.
Proof. solve_decision. Defined.

Definition isControlStart (x : item) : bool :=
  match x with ControlStart _ => true | _ => false end.

(** ** Strings *)

(** [s.index(c)] for a one-character [c]: the first position, or
    [None] where Python raises [ValueError]. *)
Fixpoint str_index (c : ascii) (s : string) : option nat :=
  match s with
  | EmptyString => None
  | String a rest => if bool_decide (a = c) then Some 0%nat else S <$> str_index c rest
  end.

(** [s[0:n]] *)
Fixpoint str_take (n : nat) (s : string) : string :=
  match n, s with
  | S k, String a rest => String a (str_take k rest)
  | _, _ => EmptyString
  end.

(** [s[n:]] *)
Fixpoint str_drop (n : nat) (s : string) : string :=
  match n, s with
  | S k, String _ rest => str_drop k rest
  | _, _ => s
  end.

(** [s.replace(old, new)] for a one-character [old]. *)
Fixpoint str_replace (old : ascii) (new : string) (s : string) : string :=
  match s with
  | EmptyString => EmptyString
  | String a rest =>
      if bool_decide (a = old) then new +:+ str_replace old new rest
      else String a (str_replace old new rest)
  end.

(** ** [WordDocumentTextInfo.getTextWithFields]: the corrective passes *)

(** Python's [l.insert(i, x)] for [0 <= i <= len(l)]. *)
Definition list_insert_at {A} (i : nat) (x : A) (l : list A) : list A :=
  take i l ++ x :: drop i l.

(** First loop: the index at which the loop stops on a controlEnd, having
    skipped only controlStart commands; [None] when it stops on anything
    else or runs off the end. *)
Fixpoint leadingControlEnd (fields : list item) : option nat :=
  match fields with
  | ControlStart _ :: rest => S <$> leadingControlEnd rest
  | ControlEnd _ :: _ => Some 0%nat
  | _ => None
  end.

(** A new, empty [FormatField()]. *)
Definition newFormatField (σ : store) : loc := fresh (dom (formatFields σ)).

Definition emptyLeadingControlFix (fields : list item) (σ : store) : list item * store :=
  match leadingControlEnd fields with
  | Some index =>
      let f := newFormatField σ in
      (list_insert_at (index + 1) (Text EmptyString)
         (list_insert_at index (FormatChange f) fields),
       Store (controlFields σ) (<[f := ∅]> (formatFields σ)))
  | None => (fields, σ)
  end.

(** Second loop: the scan up to the first text string of a list item.
    Returns the index and the text reached while [listItemStarted] holds,
    with the most recent format field; [None] when the loop breaks or ends
    before. *)
Definition isListItemStart (d : dict) : bool :=
  py_eq (dict_get d "role") Role_LISTITEM && py_truthy (dict_get d "_startOfNode").

Fixpoint findListBullet (σ : store) (listItemStarted : bool) (lastFormatField : option loc)
    (index : nat) (fields : list item) : option (nat * string * option loc) :=
  match fields with
  | [] => None
  | ControlStart c :: rest =>
      findListBullet σ (isListItemStart (controlField σ c) || listItemStarted)
        lastFormatField (S index) rest
  | FormatChange f :: rest =>
      findListBullet σ listItemStarted (Some f) (S index) rest
  | Text field :: _ =>
      if listItemStarted then Some (index, field, lastFormatField) else None
  | ControlEnd _ :: _ => None
  end.

Definition listBulletPass (fields : list item) (σ : store) : result (list item * store) :=
  match findListBullet σ false None 0 fields with
  | None => Ok (fields, σ)
  | Some (index, field, lastFormatField) =>
      match str_index " " field with
      | None => Ok (fields, σ)
      | Some spaceIndex =>
          let prefix := str_take spaceIndex field in
          let fields' := <[index := Text (str_drop (spaceIndex + 1) field)]> fields in
          match lastFormatField with
          | None => Raise TypeError
          | Some f =>
              Ok (fields',
                  formatField_setitem f "line-prefix_speakAlways" (PBool true)
                    (formatField_setitem f "line-prefix" (PStr prefix) σ))
          end
      end
  end.

(** Third part: [fields[0].field['page-number']], with [KeyError] caught. *)
Definition firstPageNumber (fields : list item) (σ : store) : result pyval :=
  match fields with
  | [] => Raise IndexError
  | Text _ :: _ => Raise AttributeError
  | ControlEnd None :: _ => Raise TypeError
  | ControlStart c :: _ | ControlEnd (Some c) :: _ =>
      Ok (dict_get (controlField σ c) "page-number")
  | FormatChange f :: _ =>
      Ok (dict_get (formatField σ f) "page-number")
  end.

Fixpoint setPageNumbers (page : pyval) (fields : list item) (σ : store) : store :=
  match fields with
  | [] => σ
  | FormatChange f :: rest =>
      setPageNumbers page rest (formatField_setitem f "page-number" page σ)
  | _ :: rest => setPageNumbers page rest σ
  end.

Definition pageNumberPass (fields : list item) (σ : store) : result (list item * store) :=
  page ← firstPageNumber fields σ;
  if bool_decide (page = PNone) then Ok (fields, σ)
  else Ok (fields, setPageNumbers page fields σ).

(** Fourth part, the scan: [seenStarts] is the set of runtime ids of the
    current run of controlStart commands, [pendingRemoves] the control
    fields marked so far. *)
Fixpoint scanDuplicates (σ : store) (seenStarts : list pyval) (pendingRemoves : list loc)
    (fields : list item) : result (list loc) :=
  match fields with
  | [] => Ok pendingRemoves
  | ControlStart c :: rest =>
      match controlField σ c !! "runtimeID" with
      | None => Raise KeyError
      | Some runtimeID =>
          if negb (py_truthy runtimeID) then scanDuplicates σ seenStarts pendingRemoves rest
          else if existsb (py_eq runtimeID) seenStarts
          then scanDuplicates σ seenStarts (pendingRemoves ++ [c]) rest
          else scanDuplicates σ (runtimeID :: seenStarts) pendingRemoves rest
      end
  | _ :: rest => scanDuplicates σ [] pendingRemoves rest
  end.

(** [isinstance(field, FieldCommand) and any(x is field.field for x in pendingRemoves)] *)
Definition isPendingRemove (pendingRemoves : list loc) (field : item) : bool :=
  match field with
  | ControlStart c | ControlEnd (Some c) => bool_decide (c ∈ pendingRemoves)
  | _ => false
  end.

(** The closing [while] loop: delete in place, advancing only past the
    fields that stay. *)
Fixpoint removePending (pendingRemoves : list loc) (fields : list item) : list item :=
  match fields with
  | [] => []
  | field :: rest =>
      if isPendingRemove pendingRemoves field then removePending pendingRemoves rest
      else field :: removePending pendingRemoves rest
  end.

Definition removeDuplicates (fields : list item) (σ : store) : result (list item * store) :=
  pendingRemoves ← scanDuplicates σ [] [] fields;
  Ok (removePending pendingRemoves fields, σ).

(** The body of [getTextWithFields] from the point where [fields] has been
    fetched from the base class. *)
Definition getTextWithFields (fields : list item) (σ : store) : result (list item * store) :=
  if bool_decide (length fields = 0%nat) then Ok (fields, σ)
  else
    let '(fields1, σ1) := emptyLeadingControlFix fields σ in
    '(fields2, σ2) ← listBulletPass fields1 σ1;
    '(fields3, σ3) ← pageNumberPass fields2 σ2;
    removeDuplicates fields3 σ3.

(** ** [WordDocumentTextInfo._getTextFromUIARange] *)

(** The character that marks the end of a cell or of a row. *)
Definition END_OF_ROW_MARK : ascii := "007"%char.

Definition VERTICAL_TAB : ascii := "011"%char.
Definition CARRIAGE_RETURN : ascii := "013"%char.

(** [t] is the text the base class returned for the range. *)
Definition _getTextFromUIARange (t : string) : string :=
  if py_truthy (PStr t) then
    let t := str_replace VERTICAL_TAB (String CARRIAGE_RETURN EmptyString) t in
    str_replace END_OF_ROW_MARK EmptyString t
  else t.

(** ** [WordDocumentTextInfo.move]

    The base class and the UIA range are outside the excerpt: [range] is
    the state of the text range behind [self], [baseMove] the inherited
    [UIATextInfo.move] and [characterText] the text that
    [info._rangeObj.getText(-1)] yields for a copy of the range expanded
    to one character.  Every use of these primitives is recorded, in
    order. *)

Inductive moveEvent :=
| BaseMove (unit : string) (direction : Z) (endPoint : option string)
| EndOfRowCheck.

Section Move.
Context {range : Type}.
Variable baseMove : string → Z → option string → range → Z * range.
Variable characterText : range → string.

Definition _isEndOfRow (self : range) : bool :=
  bool_decide (characterText self = String END_OF_ROW_MARK EmptyString).

(** [move] calls itself from inside its [while] loop and the loop need
    not end; [fuel] bounds the nesting of calls and iterations, and
    [None] stands for a run that needs more. *)
Fixpoint move (fuel : nat) (unit : string) (direction : Z) (endPoint : option string)
    (self : range) {struct fuel} : option (Z * range * list moveEvent) :=
  match fuel with
  | O => None
  | S fuel' =>
      match endPoint with
      | None =>
          let '(res, self1) := baseMove unit direction None self in
          if bool_decide (res = 0) then Some (0, self1, [BaseMove unit direction None])
          else
            '(self2, events) ← skipEndOfRow fuel' unit direction self1;
            Some (res, self2, BaseMove unit direction None :: events)
      | Some _ =>
          let '(res, self1) := baseMove unit direction endPoint self in
          Some (res, self1, [BaseMove unit direction endPoint])
      end
  end
with skipEndOfRow (fuel : nat) (unit : string) (direction : Z) (self : range)
    {struct fuel} : option (range * list moveEvent) :=
  match fuel with
  | O => None
  | S fuel' =>
      if _isEndOfRow self then
        '(res, self1, events1) ← move fuel' unit (if bool_decide (direction > 0) then 1 else -1) None self;
        if bool_decide (res = 0) then Some (self1, EndOfRowCheck :: events1)
        else
          '(self2, events2) ← skipEndOfRow fuel' unit direction self1;
          Some (self2, EndOfRowCheck :: events1 ++ events2)
      else Some (self, [EndOfRowCheck])
  end.
End Move.

(** ** [CustomAnnotationTypeInfo] *)

Abbreviation GUID := Z.

Record CustomAnnotationTypeInfo := {
  guid : GUID;
  id : Z
}.

(** A use of the platform's registration primitive. *)
Inductive hostCall := RegisterUIAAnnotationType (g : GUID).

Section CustomAnnotations.
(** The [winVersion] module and [NVDAHelper.localLib] are outside the
    excerpt: [WinVersion] with its order [>=], the constant [WIN11], the
    running version, and the integer the registration primitive returns
    for a guid. *)
Context {WinVersion : Type}.
Variable winVersion_ge : WinVersion → WinVersion → bool.
Variable WIN11 : WinVersion.
Variable getWinVer : WinVersion.
Variable registerUIAAnnotationType : GUID → Z.

(** [__post_init__] of the dataclass, run on construction from [guid];
    returns the instance and the calls made to the platform. *)
Definition CustomAnnotationTypeInfo_post_init (g : GUID)
    : CustomAnnotationTypeInfo * list hostCall :=
  if winVersion_ge getWinVer WIN11 then
    ({| guid := g; id := registerUIAAnnotationType g |}, [RegisterUIAAnnotationType g])
  else
    ({| guid := g; id := 0 |}, []).
End CustomAnnotations.

(** ** Vocabulary of the statements *)

(** What the cleanup does to one character. *)
Definition cleanCharacter (a : ascii) : list ascii :=
  if bool_decide (a = VERTICAL_TAB) then [CARRIAGE_RETURN]
  else if bool_decide (a = END_OF_ROW_MARK) then []
  else [a].

(** A run of controlStart commands. *)
Definition controlStarts (l : list item) : Prop := Forall (λ x, isControlStart x = true) l.

(** A text string or a formatChange. *)
Definition isContent (x : item) : bool :=
  match x with Text _ | FormatChange _ => true | _ => false end.

(** The fields the second loop walks over without stopping. *)
Definition isScanned (x : item) : bool :=
  match x with ControlStart _ | FormatChange _ => true | _ => false end.

Definition scanned (l : list item) : Prop := Forall (λ x, isScanned x = true) l.

(** The loop variables [listItemStarted] and [lastFormatField] after the
    second loop has walked over [pre]. *)
Fixpoint scanState (σ : store) (listItemStarted : bool) (lastFormatField : option loc)
    (pre : list item) : bool * option loc :=
  match pre with
  | [] => (listItemStarted, lastFormatField)
  | ControlStart c :: rest =>
      scanState σ (isListItemStart (controlField σ c) || listItemStarted) lastFormatField rest
  | FormatChange f :: rest => scanState σ listItemStarted (Some f) rest
  | _ :: rest => scanState σ listItemStarted lastFormatField rest
  end.

(** [runtimeID σ c X]: the control field at [c] holds the runtime id [X]. *)
Definition runtimeID (σ : store) (c : loc) (X : pyval) : Prop :=
  controlField σ c !! "runtimeID" = Some X.

(** Every controlStart of the stream has a runtime id entry. *)
Definition haveRuntimeIDs (σ : store) (fields : list item) : Prop :=
  ∀ c, ControlStart c ∈ fields → is_Some (controlField σ c !! "runtimeID").

(** No controlStart of [l] has a runtime id equal to [X]. *)
Definition noRuntimeID (σ : store) (X : pyval) (l : list item) : Prop :=
  ∀ c Y, ControlStart c ∈ l → runtimeID σ c Y → py_eq X Y = false.

(** The control fields carried by the controlStart commands, in order. *)
Definition controlStartFields (fields : list item) : list loc :=
  omap (λ x, match x with ControlStart c => Some c | _ => None end) fields.

(** Every text string of the stream comes after some formatChange, as in
    the streams the base class builds ([seen] tells whether a formatChange
    lies before the part at hand). *)
Fixpoint formatBeforeText (seen : bool) (fields : list item) : bool :=
  match fields with
  | [] => true
  | Text _ :: rest => seen && formatBeforeText seen rest
  | FormatChange _ :: rest => formatBeforeText true rest
  | _ :: rest => formatBeforeText seen rest
  end.

(** ** Sample streams and hosts *)


(** A page control holding a paragraph whose format field says page 1. *)
Definition pageStore (page : list (string * pyval)) : store :=
  Store (<[0%nat := list_to_map (("runtimeID", PTuple [42; 1]) :: page)]> ∅)
        (<[0%nat := {["page-number" := PStr "1"]}]> ∅).

Definition pageFields : list item :=
  [ControlStart 0; FormatChange 0; Text "text"; ControlEnd (Some 0%nat)].

(** A control that opens and closes at once, followed by a control with
    the same runtime id. *)
Definition sameIdStore : store :=
  Store (<[1%nat := {["runtimeID" := PTuple [42; 7]]}]>
           (<[0%nat := {["runtimeID" := PTuple [42; 7]]}]> ∅)) ∅.

Definition startEndStart : list item :=
  [ControlStart 0; ControlEnd (Some 0%nat); ControlStart 1].

(** A list item with its text [w]. *)
Definition listItemStore : store :=
  Store (<[0%nat := list_to_map [("role", Role_LISTITEM); ("_startOfNode", PBool true);
                                  ("runtimeID", PTuple [42; 3])]]> ∅)
        (<[0%nat := ∅]> ∅).

Definition listItemFields (w : string) : list item :=
  [ControlStart 0; FormatChange 0; Text w; ControlEnd (Some 0%nat)].

(** Two nested tables with one runtime id, as Word reports a table inside
    a table header: the inner controlStart repeats the outer one. *)
Definition nestedStore : store :=
  Store (<[1%nat := {["runtimeID" := PTuple [42; 9]]}]>
           (<[0%nat := {["runtimeID" := PTuple [42; 9]]}]> ∅))
        (<[0%nat := ∅]> ∅).

Definition nestedFields : list item :=
  [ControlStart 0; ControlStart 1; FormatChange 0; Text "cell";
   ControlEnd (Some 1%nat); ControlEnd (Some 0%nat)].

(** A control and a format field that are both empty mappings: the control
    has no runtime id. *)
Definition plainStore : store := Store (<[0%nat := ∅]> ∅) (<[0%nat := ∅]> ∅).

(** A list item and no format field. *)
Definition bareListItemStore : store :=
  Store (<[0%nat := list_to_map [("role", Role_LISTITEM); ("_startOfNode", PBool true);
                                  ("runtimeID", PTuple [42; 3])]]> ∅) ∅.

(** Three controls with one runtime id inside a document control; the
    second of them is empty, and separates the first from the third. *)
Definition repeatedStore : store :=
  Store (<[3%nat := {["runtimeID" := PTuple [42; 5]]}]>
        (<[2%nat := {["runtimeID" := PTuple [42; 5]]}]>
        (<[1%nat := {["runtimeID" := PTuple [42; 5]]}]>
        (<[0%nat := {["runtimeID" := PTuple [42; 1]]}]> ∅))))
        (<[0%nat := ∅]> ∅).

Definition repeatedFields : list item :=
  [ControlStart 0; FormatChange 0; Text "t";
   ControlStart 1; ControlStart 2; ControlEnd (Some 2%nat);
   ControlStart 3; ControlEnd (Some 3%nat); ControlEnd (Some 1%nat);
   ControlEnd (Some 0%nat)].

(** A page control whose control field is carried by two controlStart
    commands, around a control that names another page. *)
Definition sharedFieldStore : store :=
  Store (<[1%nat := list_to_map [("runtimeID", PTuple [42; 2]); ("page-number", PStr "5")]]>
        (<[0%nat := list_to_map [("runtimeID", PTuple [42; 1]); ("page-number", PStr "3")]]> ∅))
        (<[0%nat := ∅]> ∅).

Definition sharedFieldFields : list item :=
  [ControlStart 0; ControlStart 0; ControlStart 1; FormatChange 0; Text "t"].

(** Versions as (major, minor, build), ordered lexicographically, with
    build 22000 of version 10.0 as the first Windows 11. *)
Definition exampleVersion_ge (v w : Z * Z * Z) : bool :=
  let '(a, b, c) := v in
  let '(a', b', c') := w in
  bool_decide (a > a' ∨ (a = a' ∧ (b > b' ∨ (b = b' ∧ c >= c')))).

(** A range over the text a, BEL, BEL, b: positions 0 to 4, moved by
    characters and clamped at both ends. *)
Definition exampleText (p : Z) : string :=
  if bool_decide (p = 1) then String END_OF_ROW_MARK EmptyString
  else if bool_decide (p = 2) then String END_OF_ROW_MARK EmptyString
  else if bool_decide (p = 0) then "a"
  else if bool_decide (p = 3) then "b"
  else EmptyString.

Definition exampleMove (unit : string) (direction : Z) (endPoint : option string) (p : Z)
    : Z * Z :=
  let q := Z.max 0 (Z.min 4 (p + direction)) in (q - p, q).

(** * Properties *)

(** ** Range text cleanup *)

Lemma str_replace_characters (t : string) :
  list_ascii_of_string
    (str_replace END_OF_ROW_MARK EmptyString (str_replace VERTICAL_TAB (String CARRIAGE_RETURN EmptyString) t))
  = flat_map cleanCharacter (list_ascii_of_string t).
Proof.
  induction t as [|a t IH]; [done|].
  cbn [str_replace list_ascii_of_string flat_map]. unfold cleanCharacter at 1.
  destruct (bool_decide (a = VERTICAL_TAB)) eqn:Hv.
  - change (String CARRIAGE_RETURN EmptyString +:+ ?s) with (String CARRIAGE_RETURN s).
    cbn [str_replace].
    rewrite (bool_decide_eq_false_2 (CARRIAGE_RETURN = END_OF_ROW_MARK)) by done.
    cbn [list_ascii_of_string app]. by rewrite IH.
  - cbn [str_replace]. destruct (bool_decide (a = END_OF_ROW_MARK)) eqn:He.
    + change (EmptyString +:+ ?s) with s. by rewrite IH.
    + cbn [list_ascii_of_string app]. by rewrite IH.
Qed.

Lemma getTextFromUIARange_characters (t : string) :
  list_ascii_of_string (_getTextFromUIARange t)
  = flat_map cleanCharacter (list_ascii_of_string t).
Proof.
  unfold _getTextFromUIARange. destruct t as [|a t]; [done|].
  cbn [py_truthy]. rewrite bool_decide_eq_false_2 by done. cbn [negb].
  apply str_replace_characters.
Qed.

Lemma cleanCharacter_stable (l : list ascii) :
  flat_map cleanCharacter (flat_map cleanCharacter l) = flat_map cleanCharacter l.
Proof.
  induction l as [|a l IH]; [done|].
  cbn [flat_map]. rewrite flat_map_app, IH. f_equal.
  unfold cleanCharacter at 2 3.
  repeat case_bool_decide; cbn; rewrite ?app_nil_r; try done.
  unfold cleanCharacter. by rewrite !bool_decide_eq_false_2.
Qed.

(** C8: [_getTextFromUIARange] returns the raw text with every vertical
    tab turned into a carriage return and every end-of-row mark dropped,
    character by character; the raw text a, VT, b, BEL, c becomes
    a, CR, b, c; and cleaning a cleaned text changes nothing. *)
Theorem getTextFromUIARange_cleanup :
  (∀ t : string,
     list_ascii_of_string (_getTextFromUIARange t)
     = flat_map cleanCharacter (list_ascii_of_string t))
  ∧ _getTextFromUIARange
      (String "a" (String VERTICAL_TAB (String "b" (String END_OF_ROW_MARK "c"))))
    = String "a" (String CARRIAGE_RETURN "bc")
  ∧ (∀ t : string,
       _getTextFromUIARange (_getTextFromUIARange t) = _getTextFromUIARange t).
Proof.
  split_and!.
  - apply getTextFromUIARange_characters.
  - reflexivity.
  - intros t.
    rewrite <- (string_of_list_ascii_of_string (_getTextFromUIARange (_getTextFromUIARange t))).
    rewrite <- (string_of_list_ascii_of_string (_getTextFromUIARange t)) at 2.
    f_equal. rewrite getTextFromUIARange_characters.
    rewrite getTextFromUIARange_characters. apply cleanCharacter_stable.
Qed.

(** ** Registration of custom annotation types *)

(** C9: below Windows 11 the instance gets the id 0 and the registration
    primitive is not called; from Windows 11 on the id is the integer the
    primitive returns for the guid of the instance, obtained by one call. *)
Theorem post_init_registration_gating {WinVersion : Type}
    (winVersion_ge : WinVersion → WinVersion → bool) (WIN11 getWinVer : WinVersion)
    (registerUIAAnnotationType : GUID → Z) (g : GUID) :
  let run := CustomAnnotationTypeInfo_post_init winVersion_ge WIN11 getWinVer
               registerUIAAnnotationType g in
  guid run.1 = g
  ∧ (winVersion_ge getWinVer WIN11 = false → id run.1 = 0 ∧ run.2 = [])
  ∧ (winVersion_ge getWinVer WIN11 = true →
       id run.1 = registerUIAAnnotationType g ∧ run.2 = [RegisterUIAAnnotationType g]).
Proof.
  unfold CustomAnnotationTypeInfo_post_init. cbv zeta.
  destruct (winVersion_ge getWinVer WIN11); cbn; split_and!; done.
Qed.

Lemma post_init_registration_gating_witness :
  let old := CustomAnnotationTypeInfo_post_init exampleVersion_ge (10, 0, 22000)
               (10, 0, 19045) (λ g, g + 60000) 7 in
  let new := CustomAnnotationTypeInfo_post_init exampleVersion_ge (10, 0, 22000)
               (10, 0, 22621) (λ g, g + 60000) 7 in
  (id old.1 = 0 ∧ old.2 = []) ∧ (id new.1 = 60007 ∧ new.2 = [RegisterUIAAnnotationType 7]).
Proof.
  split.
  - apply (post_init_registration_gating exampleVersion_ge (10, 0, 22000)
             (10, 0, 19045) (λ g, g + 60000) 7). reflexivity.
  - apply (post_init_registration_gating exampleVersion_ge (10, 0, 22000)
             (10, 0, 22621) (λ g, g + 60000) 7). reflexivity.
Defined.

(** ** Movement *)

Section MoveProperties.
Context {range : Type}.
Variable baseMove : string → Z → option string → range → Z * range.
Variable characterText : range → string.

Lemma move_events_endPoint fuel unit direction endPoint self res self' events :
  move baseMove characterText fuel unit direction endPoint self = Some (res, self', events) →
  EndOfRowCheck ∈ events → endPoint = None.
Proof.
  destruct fuel as [|fuel]; [done|]. destruct endPoint as [e|]; [|done].
  cbn. destruct (baseMove unit direction (Some e) self) as [r s].
  intros [= <- <- <-]. intros Hin. apply list_elem_of_singleton in Hin. done.
Qed.
End MoveProperties.

(** C10: with an end point given, [move] is the inherited move and nothing
    else: one call of the base primitive, no end-of-row check.  An
    end-of-row check in a run therefore means that no end point was given.
    Without an end point, when the inherited move returns 0 the result is
    0 at once, again after that one call only. *)
Theorem move_endPoint_delegates {range : Type}
    (baseMove : string → Z → option string → range → Z * range)
    (characterText : range → string)
    (fuel : nat) (unit : string) (direction : Z) (self : range) :
  (∀ e : string,
     move baseMove characterText (S fuel) unit direction (Some e) self
     = Some (baseMove unit direction (Some e) self, [BaseMove unit direction (Some e)]))
  ∧ (∀ endPoint res self' events,
       move baseMove characterText fuel unit direction endPoint self = Some (res, self', events) →
       EndOfRowCheck ∈ events → endPoint = None)
  ∧ ((baseMove unit direction None self).1 = 0 →
       move baseMove characterText (S fuel) unit direction None self
       = Some (0, (baseMove unit direction None self).2, [BaseMove unit direction None])).
Proof.
  split_and!.
  - intros e. cbn. by destruct (baseMove unit direction (Some e) self).
  - intros endPoint res self' events. apply move_events_endPoint.
  - cbn. destruct (baseMove unit direction None self) as [res self1]. cbn.
    intros ->. by rewrite bool_decide_eq_true_2.
Qed.

Lemma move_endPoint_delegates_witness :
  move exampleMove exampleText 1 "character" 1 (Some "end") 0
  = Some (1, 1, [BaseMove "character" 1 (Some "end")])
  ∧ move exampleMove exampleText 1 "character" 1 None 4
    = Some (0, 4, [BaseMove "character" 1 None]).
Proof.
  split.
  - apply (move_endPoint_delegates exampleMove exampleText 0 "character" 1 0).
  - apply (move_endPoint_delegates exampleMove exampleText 0 "character" 1 4). reflexivity.
Defined.

(** Without an end point the loop does run: from a, one character forward
    lands on the first mark and two more moves leave the marks behind. *)
Example move_skips_marks :
  move exampleMove exampleText 8 "character" 1 None 0
  = Some (1, 3, [BaseMove "character" 1 None; EndOfRowCheck;
                 BaseMove "character" 1 None; EndOfRowCheck;
                 BaseMove "character" 1 None; EndOfRowCheck; EndOfRowCheck; EndOfRowCheck]).
Proof. vm_compute. reflexivity. Qed.

(** ** The corrective passes of [getTextWithFields] *)

Lemma list_insert_at_app {A} (l1 l2 : list A) (x : A) :
  list_insert_at (length l1) x (l1 ++ l2) = l1 ++ x :: l2.
Proof. unfold list_insert_at. by rewrite take_app_length, drop_app_length. Qed.

Lemma leadingControlEnd_end (starts rest : list item) (e : option loc) :
  controlStarts starts →
  leadingControlEnd (starts ++ ControlEnd e :: rest) = Some (length starts).
Proof.
  induction 1 as [|x starts Hx _ IH]; [done|].
  destruct x; try done. cbn. by rewrite IH.
Qed.

Lemma leadingControlEnd_content (starts rest : list item) (x : item) :
  controlStarts starts → isContent x = true →
  leadingControlEnd (starts ++ x :: rest) = None.
Proof.
  intros Hs Hx. induction Hs as [|y starts Hy _ IH]; [by destruct x|].
  destruct y; try done. cbn. by rewrite IH.
Qed.

Lemma leadingControlEnd_starts (starts : list item) :
  controlStarts starts → leadingControlEnd starts = None.
Proof.
  induction 1 as [|y starts Hy _ IH]; [done|].
  destruct y; try done. cbn. by rewrite IH.
Qed.

Lemma newFormatField_fresh (σ : store) : formatFields σ !! newFormatField σ = None.
Proof. unfold newFormatField. apply not_elem_of_dom. apply is_fresh. Qed.

Lemma emptyLeadingControlFix_end (starts rest : list item) (e : option loc) (σ : store) :
  controlStarts starts →
  emptyLeadingControlFix (starts ++ ControlEnd e :: rest) σ
  = (starts ++ FormatChange (newFormatField σ) :: Text EmptyString :: ControlEnd e :: rest,
     Store (controlFields σ) (<[newFormatField σ := ∅]> (formatFields σ))).
Proof.
  intros Hs. unfold emptyLeadingControlFix. rewrite leadingControlEnd_end by done.
  f_equal. rewrite list_insert_at_app.
  replace (length starts + 1)%nat with (length (starts ++ [FormatChange (newFormatField σ)])).
  2:{ by rewrite length_app. }
  rewrite (cons_middle (FormatChange (newFormatField σ)) starts (ControlEnd e :: rest)).
  rewrite app_assoc, list_insert_at_app.
  by rewrite <- app_assoc.
Qed.



(** *** Store lemmas *)

Lemma formatField_setitem_lookup (f f' : loc) (k k' : string) (v : pyval) (σ : store) :
  formatField (formatField_setitem f k v σ) f' !! k'
  = if decide (f = f' ∧ k = k') then Some v else formatField σ f' !! k'.
Proof.
  unfold formatField, formatField_setitem. cbn.
  destruct (decide (f = f')) as [->|Hf].
  - rewrite lookup_total_insert_eq. destruct (decide (k = k')) as [->|Hk].
    + rewrite lookup_insert_eq. by rewrite decide_True.
    + rewrite lookup_insert_ne by done. rewrite decide_False; [done|]. by intros [_ ?].
  - rewrite lookup_total_insert_ne by done. rewrite decide_False; [done|]. by intros [? _].
Qed.

Lemma formatField_setitem_other (f f' : loc) (k : string) (v : pyval) (σ : store) :
  f ≠ f' → formatFields (formatField_setitem f k v σ) !! f' = formatFields σ !! f'.
Proof. intros Hf. unfold formatField_setitem. cbn. by rewrite lookup_insert_ne. Qed.

Lemma setPageNumbers_controlFields (page : pyval) (fields : list item) (σ : store) :
  controlFields (setPageNumbers page fields σ) = controlFields σ.
Proof.
  revert σ. induction fields as [|x fields IH]; intros σ; [done|].
  destruct x; cbn; rewrite ?IH; done.
Qed.

Lemma setPageNumbers_keep (page : pyval) (fields : list item) (σ : store) (f : loc) (k : string) :
  k ≠ "page-number" →
  formatField (setPageNumbers page fields σ) f !! k = formatField σ f !! k.
Proof.
  intros Hk. revert σ. induction fields as [|x fields IH]; intros σ; [done|].
  destruct x as [w|c|e|g]; cbn [setPageNumbers]; rewrite IH; try done.
  rewrite formatField_setitem_lookup. rewrite decide_False; [done|]. by intros [_ ?].
Qed.

Lemma setPageNumbers_stays (page : pyval) (fields : list item) (σ : store) (f : loc) :
  formatField σ f !! "page-number" = Some page →
  formatField (setPageNumbers page fields σ) f !! "page-number" = Some page.
Proof.
  revert σ. induction fields as [|x fields IH]; intros σ Hσ; [done|].
  destruct x as [w|c|e|g]; cbn [setPageNumbers]; apply IH; try done.
  rewrite formatField_setitem_lookup. by case_decide.
Qed.

Lemma setPageNumbers_page (page : pyval) (fields : list item) (σ : store) (f : loc) :
  FormatChange f ∈ fields →
  formatField (setPageNumbers page fields σ) f !! "page-number" = Some page.
Proof.
  revert σ. induction fields as [|x fields IH]; intros σ Hf.
  - by apply elem_of_nil in Hf.
  - apply elem_of_cons in Hf as [<-|Hf].
    + cbn [setPageNumbers]. apply setPageNumbers_stays.
      rewrite formatField_setitem_lookup. by rewrite decide_True.
    + destruct x as [w|c|e|g]; cbn [setPageNumbers]; by apply IH.
Qed.

Lemma setPageNumbers_other (page : pyval) (fields : list item) (σ : store) (f : loc) :
  FormatChange f ∉ fields →
  formatFields (setPageNumbers page fields σ) !! f = formatFields σ !! f.
Proof.
  revert σ. induction fields as [|x fields IH]; intros σ Hf; [done|].
  apply not_elem_of_cons in Hf as [Hx Hf].
  destruct x as [w|c|e|g]; cbn [setPageNumbers]; rewrite IH by done; try done.
  apply formatField_setitem_other. congruence.
Qed.

(** *** What each pass leaves alone *)

Lemma emptyLeadingControlFix_controlFields (fields : list item) (σ : store) :
  controlFields (emptyLeadingControlFix fields σ).2 = controlFields σ.
Proof. unfold emptyLeadingControlFix. by destruct (leadingControlEnd fields). Qed.

Lemma emptyLeadingControlFix_formatField (fields : list item) (σ : store) (f : loc) :
  formatField (emptyLeadingControlFix fields σ).2 f = formatField σ f.
Proof.
  unfold emptyLeadingControlFix. destruct (leadingControlEnd fields); [|done].
  unfold formatField. cbn. destruct (decide (newFormatField σ = f)) as [<-|Hf].
  - rewrite lookup_total_insert_eq, lookup_total_alt.
    by rewrite newFormatField_fresh.
  - by rewrite lookup_total_insert_ne.
Qed.

Lemma emptyLeadingControlFix_head (c : loc) (rest : list item) (σ : store) :
  ∃ rest1, (emptyLeadingControlFix (ControlStart c :: rest) σ).1 = ControlStart c :: rest1.
Proof.
  unfold emptyLeadingControlFix. cbn [leadingControlEnd].
  destruct (leadingControlEnd rest) as [index|]; cbn; eauto.
Qed.

Lemma findListBullet_Some (σ : store) (started : bool) (last : option loc) (i : nat)
    (fields : list item) (index : nat) (w : string) (last' : option loc) :
  findListBullet σ started last i fields = Some (index, w, last') →
  ∃ pre post, fields = pre ++ Text w :: post ∧ index = (i + length pre)%nat
              ∧ Forall (λ x, isScanned x = true) pre.
Proof.
  revert started last i. induction fields as [|x fields IH]; intros started last i H; [done|].
  destruct x as [v|c|e|g]; cbn in H.
  - destruct started; [|done]. injection H as <- <- <-.
    exists [], fields. split_and!; [done|cbn; lia|constructor].
  - apply IH in H as (pre & post & -> & -> & Hpre).
    exists (ControlStart c :: pre), post. split_and!; [done|cbn; lia|by constructor].
  - done.
  - apply IH in H as (pre & post & -> & -> & Hpre).
    exists (FormatChange g :: pre), post. split_and!; [done|cbn; lia|by constructor].
Qed.

Lemma listBulletPass_inv (fields fields2 : list item) (σ σ2 : store) :
  listBulletPass fields σ = Ok (fields2, σ2) →
  (fields2 = fields ∧ σ2 = σ)
  ∨ ∃ index w spaceIndex f,
      findListBullet σ false None 0 fields = Some (index, w, Some f)
      ∧ str_index " " w = Some spaceIndex
      ∧ fields2 = <[index := Text (str_drop (spaceIndex + 1) w)]> fields
      ∧ σ2 = formatField_setitem f "line-prefix_speakAlways" (PBool true)
               (formatField_setitem f "line-prefix" (PStr (str_take spaceIndex w)) σ).
Proof.
  unfold listBulletPass.
  destruct (findListBullet σ false None 0 fields) as [[[index w] last]|] eqn:Hfind.
  2:{ intros [= <- <-]. by left. }
  destruct (str_index " " w) as [spaceIndex|] eqn:Hsp.
  2:{ intros [= <- <-]. by left. }
  destruct last as [f|]; [|done].
  intros [= <- <-]. right. by exists index, w, spaceIndex, f.
Qed.

Lemma listBulletPass_controlFields (fields fields2 : list item) (σ σ2 : store) :
  listBulletPass fields σ = Ok (fields2, σ2) → controlFields σ2 = controlFields σ.
Proof. intros [[_ ->]|(? & ? & ? & ? & _ & _ & _ & ->)]%listBulletPass_inv; done. Qed.

Lemma listBulletPass_keep (fields fields2 : list item) (σ σ2 : store) (f : loc) (k : string) :
  listBulletPass fields σ = Ok (fields2, σ2) →
  k ≠ "line-prefix" → k ≠ "line-prefix_speakAlways" →
  formatField σ2 f !! k = formatField σ f !! k.
Proof.
  intros [[_ ->]|(? & ? & ? & ? & _ & _ & _ & ->)]%listBulletPass_inv Hk1 Hk2; [done|].
  rewrite !formatField_setitem_lookup.
  rewrite !decide_False; [done| |]; by intros [_ ?].
Qed.

Lemma listBulletPass_head (c : loc) (rest fields2 : list item) (σ σ2 : store) :
  listBulletPass (ControlStart c :: rest) σ = Ok (fields2, σ2) →
  ∃ rest2, fields2 = ControlStart c :: rest2.
Proof.
  intros [[-> _]|(index & w & ? & ? & Hfind & _ & -> & _)]%listBulletPass_inv; [eauto|].
  apply findListBullet_Some in Hfind as (pre & post & Heq & -> & _).
  destruct pre as [|p pre]; [done|]. cbn. eauto.
Qed.

Lemma removePending_elem (pendingRemoves : list loc) (fields : list item) (x : item) :
  x ∈ removePending pendingRemoves fields → x ∈ fields.
Proof.
  induction fields as [|y fields IH]; [done|]. cbn.
  destruct (isPendingRemove pendingRemoves y).
  - intros H. by apply list_elem_of_further, IH.
  - intros [->|H]%elem_of_cons; [apply list_elem_of_here|by apply list_elem_of_further, IH].
Qed.

Lemma removePending_kept (pendingRemoves : list loc) (fields : list item) (x : item) :
  x ∈ fields → isPendingRemove pendingRemoves x = false →
  x ∈ removePending pendingRemoves fields.
Proof.
  intros Hx Hp. induction fields as [|y fields IH]; [done|]. cbn.
  apply elem_of_cons in Hx as [<-|Hx].
  - rewrite Hp. apply list_elem_of_here.
  - destruct (isPendingRemove pendingRemoves y); [by apply IH|].
    by apply list_elem_of_further, IH.
Qed.

Lemma removeDuplicates_inv (fields out : list item) (σ σ' : store) :
  removeDuplicates fields σ = Ok (out, σ') →
  σ' = σ ∧ ∃ pendingRemoves,
    scanDuplicates σ [] [] fields = Ok pendingRemoves
    ∧ out = removePending pendingRemoves fields.
Proof.
  unfold removeDuplicates. destruct (scanDuplicates σ [] [] fields) as [p|] eqn:Hp; [|done].
  cbn. intros [= <- <-]. eauto.
Qed.

(** Unfolding of [getTextWithFields] on a non-empty stream that comes back. *)
Lemma getTextWithFields_inv (fields out : list item) (σ σ' : store) :
  fields ≠ [] →
  getTextWithFields fields σ = Ok (out, σ') →
  ∃ fields2 σ2 fields3 σ3,
    listBulletPass (emptyLeadingControlFix fields σ).1 (emptyLeadingControlFix fields σ).2
    = Ok (fields2, σ2)
    ∧ pageNumberPass fields2 σ2 = Ok (fields3, σ3)
    ∧ removeDuplicates fields3 σ3 = Ok (out, σ').
Proof.
  intros Hne. unfold getTextWithFields.
  rewrite bool_decide_eq_false_2 by (by destruct fields).
  destruct (emptyLeadingControlFix fields σ) as [fields1 σ1]. cbn [fst snd].
  destruct (listBulletPass fields1 σ1) as [[fields2 σ2]|] eqn:H2; [|done].
  cbn. destruct (pageNumberPass fields2 σ2) as [[fields3 σ3]|] eqn:H3; [|done].
  cbn. intros H4. by exists fields2, σ2, fields3, σ3.
Qed.

(** *** Page-number propagation *)

Lemma bind_Ok {A B} (a : A) (k : A → result B) : Ok a ≫= k = k a.
Proof. done. Qed.

Lemma pageNumberPass_start (c : loc) (rest : list item) (σ : store) :
  pageNumberPass (ControlStart c :: rest) σ
  = Ok (ControlStart c :: rest,
        if bool_decide (dict_get (controlField σ c) "page-number" = PNone) then σ
        else setPageNumbers (dict_get (controlField σ c) "page-number")
               (ControlStart c :: rest) σ).
Proof. unfold pageNumberPass. cbn. by case_bool_decide. Qed.

(** The stream and the store that reach the third pass when the stream
    handed to [getTextWithFields] starts with a controlStart. *)
Lemma getTextWithFields_start_inv (c : loc) (rest out : list item) (σ σ' : store) :
  getTextWithFields (ControlStart c :: rest) σ = Ok (out, σ') →
  ∃ rest2 σ2,
    controlFields σ2 = controlFields σ
    ∧ (∀ f, formatField σ2 f !! "page-number" = formatField σ f !! "page-number")
    ∧ pageNumberPass (ControlStart c :: rest2) σ2 ≫= (λ '(fields3, σ3), removeDuplicates fields3 σ3)
      = Ok (out, σ').
Proof.
  intros H. apply getTextWithFields_inv in H as (fields2 & σ2 & fields3 & σ3 & H2 & H3 & H4);
    [|done].
  destruct (emptyLeadingControlFix_head c rest σ) as [rest1 H1].
  rewrite H1 in H2.
  destruct (listBulletPass_head _ _ _ _ _ H2) as [rest2 ->].
  exists rest2, σ2. split_and!.
  - rewrite (listBulletPass_controlFields _ _ _ _ H2).
    apply emptyLeadingControlFix_controlFields.
  - intros f. rewrite (listBulletPass_keep _ _ _ _ f "page-number" H2) by done.
    by rewrite emptyLeadingControlFix_formatField.
  - rewrite H3. exact H4.
Qed.

(** C7: when the first field is a controlStart whose control field holds a
    page-number other than [None], the third pass writes that value into
    the format field of every formatChange of the stream, over whatever
    was there, and changes nothing else; the stream [getTextWithFields]
    returns then has that page-number on each of its formatChange fields.
    When the first field holds no page-number, the pass changes nothing,
    and [getTextWithFields] as a whole leaves every page-number of a
    format field as it was. *)
Theorem pageNumber_propagation (c : loc) (rest : list item) (σ : store) :
  let fields := ControlStart c :: rest in
  let page := dict_get (controlField σ c) "page-number" in
  (page ≠ PNone →
     (∃ σ', pageNumberPass fields σ = Ok (fields, σ')
            ∧ controlFields σ' = controlFields σ
            ∧ (∀ f, FormatChange f ∈ fields → formatField σ' f !! "page-number" = Some page)
            ∧ (∀ f k, k ≠ "page-number" → formatField σ' f !! k = formatField σ f !! k)
            ∧ (∀ f, FormatChange f ∉ fields → formatFields σ' !! f = formatFields σ !! f))
     ∧ (∀ out σ', getTextWithFields fields σ = Ok (out, σ') →
          ∀ f, FormatChange f ∈ out → formatField σ' f !! "page-number" = Some page))
  ∧ (page = PNone →
       pageNumberPass fields σ = Ok (fields, σ)
       ∧ (∀ out σ', getTextWithFields fields σ = Ok (out, σ') →
            ∀ f, formatField σ' f !! "page-number" = formatField σ f !! "page-number")).
Proof.
  intros fields page. split.
  - intros Hpage. split.
    + exists (setPageNumbers page fields σ). split_and!.
      * subst fields. rewrite pageNumberPass_start.
        by rewrite bool_decide_eq_false_2.
      * apply setPageNumbers_controlFields.
      * intros f Hf. by apply setPageNumbers_page.
      * intros f k Hk. by apply setPageNumbers_keep.
      * intros f Hf. by apply setPageNumbers_other.
    + intros out σ' H f Hf.
      apply getTextWithFields_start_inv in H as (rest2 & σ2 & Hc & _ & H).
      rewrite pageNumberPass_start, bind_Ok in H. cbv beta iota in H.
      unfold controlField in H. rewrite Hc in H. fold (controlField σ c) in H. fold page in H.
      rewrite bool_decide_eq_false_2 in H by done.
      apply removeDuplicates_inv in H as (-> & p & _ & ->).
      apply removePending_elem in Hf. by apply setPageNumbers_page.
  - intros Hpage. split.
    + subst fields. rewrite pageNumberPass_start. by rewrite bool_decide_eq_true_2.
    + intros out σ' H f.
      apply getTextWithFields_start_inv in H as (rest2 & σ2 & Hc & Hf & H).
      rewrite pageNumberPass_start, bind_Ok in H. cbv beta iota in H.
      unfold controlField in H. rewrite Hc in H. fold (controlField σ c) in H. fold page in H.
      rewrite bool_decide_eq_true_2 in H by done.
      apply removeDuplicates_inv in H as (-> & _). apply Hf.
Qed.

Lemma pageNumber_propagation_witness :
  (∃ σ', pageNumberPass pageFields (pageStore [("page-number", PStr "3")]) = Ok (pageFields, σ')
         ∧ formatField σ' 0%nat !! "page-number" = Some (PStr "3"))
  ∧ pageNumberPass pageFields (pageStore []) = Ok (pageFields, pageStore []).
Proof.
  split.
  - destruct (proj1 (pageNumber_propagation 0%nat (tail pageFields)
                       (pageStore [("page-number", PStr "3")])))
      as [(σ' & Hrun & _ & Hpage & _) _]; [done|].
    exists σ'. split; [exact Hrun|]. apply Hpage. apply list_elem_of_further, list_elem_of_here.
  - apply (proj2 (pageNumber_propagation 0%nat (tail pageFields) (pageStore []))).
    reflexivity.
Defined.

(** *** Duplicate removal: what resets the seen set *)

Lemma removePending_nil (fields : list item) : removePending [] fields = fields.
Proof.
  induction fields as [|x fields IH]; [done|].
  cbn [removePending]. replace (isPendingRemove [] x) with false; [by rewrite IH|].
  destruct x as [w|c|[c|]|f]; cbn; try done;
    symmetry; apply bool_decide_eq_false_2, not_elem_of_nil.
Qed.

(** C3, as stated, fails: the controlEnd empties the seen set, so the
    second controlStart is not marked and stays in the stream, both in the
    fourth pass alone and in [getTextWithFields]. *)
Lemma controlEnd_keeps_seenStarts_counterexample :
  scanDuplicates sameIdStore [] [] startEndStart = Ok []
  ∧ removeDuplicates startEndStart sameIdStore = Ok (startEndStart, sameIdStore)
  ∧ ∃ out σ', getTextWithFields startEndStart sameIdStore = Ok (out, σ')
              ∧ ControlStart 1 ∈ out.
Proof.
  split_and!; [reflexivity|reflexivity|].
  eexists _, _. split; [vm_compute; reflexivity|].
  do 4 apply list_elem_of_further. apply list_elem_of_here.
Qed.

Lemma scanDuplicates_start_end_start (a b : loc) (e : option loc) (σ : store) (X : pyval)
    (between : list item) :
  controlField σ a !! "runtimeID" = Some X →
  controlField σ b !! "runtimeID" = Some X →
  py_truthy X = true →
  Forall (λ x, isContent x = true) between →
  scanDuplicates σ [] [] (ControlStart a :: between ++ [ControlEnd e; ControlStart b]) = Ok [].
Proof.
  intros Ha Hb HX Hbetween. cbn [scanDuplicates]. rewrite Ha, HX. cbn [negb existsb].
  assert (Hscan : ∀ seen, scanDuplicates σ seen [] (between ++ [ControlEnd e; ControlStart b])
                          = Ok []).
  { induction Hbetween as [|x between Hx _ IH]; intros seen.
    - cbn [app scanDuplicates]. rewrite Hb, HX. done.
    - destruct x; try done; cbn [app scanDuplicates]; apply IH. }
  apply Hscan.
Qed.

(** C3 (amended): a controlEnd, like every field that is not a
    controlStart, empties the seen set.  In a stream controlStart (id X),
    controlEnd, controlStart (id X), with X not empty, the second
    controlStart is not marked: the fourth pass returns the stream as it
    is, and [getTextWithFields] returns it with only the formatChange and
    the empty text of the first pass added. *)
Theorem controlEnd_resets_seenStarts (a b : loc) (e : option loc) (σ : store) (X : pyval) :
  controlField σ a !! "runtimeID" = Some X →
  controlField σ b !! "runtimeID" = Some X →
  py_truthy X = true →
  let fields := [ControlStart a; ControlEnd e; ControlStart b] in
  scanDuplicates σ [] [] fields = Ok []
  ∧ removeDuplicates fields σ = Ok (fields, σ)
  ∧ ∃ σ', getTextWithFields fields σ
          = Ok ([ControlStart a; FormatChange (newFormatField σ); Text EmptyString;
                 ControlEnd e; ControlStart b], σ').
Proof.
  intros Ha Hb HX fields.
  assert (Hscan : scanDuplicates σ [] [] fields = Ok []).
  { apply (scanDuplicates_start_end_start a b e σ X []); done || constructor. }
  split_and!; [done| |].
  - unfold removeDuplicates. rewrite Hscan, bind_Ok. by rewrite removePending_nil.
  - unfold getTextWithFields. rewrite bool_decide_eq_false_2 by done.
    pose proof (emptyLeadingControlFix_end [ControlStart a] [ControlStart b] e σ) as H1.
    cbn [app] in H1. unfold fields. rewrite H1 by (by repeat constructor). clear H1.
    set (new := newFormatField σ).
    set (σ1 := Store (controlFields σ) (<[new := ∅]> (formatFields σ))).
    set (fields1 := [ControlStart a; FormatChange new; Text EmptyString; ControlEnd e; ControlStart b]).
    assert (H2 : listBulletPass fields1 σ1 = Ok (fields1, σ1)).
    { unfold listBulletPass, fields1. cbn [findListBullet].
      by destruct (isListItemStart (controlField σ1 a) || false). }
    rewrite H2, bind_Ok. cbv beta iota.
    unfold fields1 at 1. rewrite pageNumberPass_start, bind_Ok. cbv beta iota.
    fold fields1.
    set (σ3 := if bool_decide _ then σ1 else _).
    assert (Hc : controlFields σ3 = controlFields σ).
    { unfold σ3. case_bool_decide; [done|]. by rewrite setPageNumbers_controlFields. }
    exists σ3. unfold removeDuplicates.
    pose proof (scanDuplicates_start_end_start a b e σ3 X [FormatChange new; Text EmptyString]) as H4.
    cbn [app] in H4. fold fields1 in H4. rewrite H4.
    + by rewrite bind_Ok, removePending_nil.
    + unfold controlField. by rewrite Hc.
    + unfold controlField. by rewrite Hc.
    + done.
    + by repeat constructor.
Qed.

Lemma controlEnd_resets_seenStarts_witness :
  removeDuplicates startEndStart sameIdStore = Ok (startEndStart, sameIdStore).
Proof.
  apply (controlEnd_resets_seenStarts 0%nat 1%nat (Some 0%nat) sameIdStore (PTuple [42; 7]));
    reflexivity.
Defined.

(** *** List-bullet extraction *)

Lemma append_nil (s : string) : EmptyString +:+ s = s.
Proof. reflexivity. Qed.

Lemma append_cons (a : ascii) (s t : string) : String a s +:+ t = String a (s +:+ t).
Proof. reflexivity. Qed.

Lemma str_index_prefix (c : ascii) (prefix suffix : string) :
  str_index c prefix = None →
  str_index c (prefix +:+ String c suffix) = Some (String.length prefix).
Proof.
  induction prefix as [|a prefix IH]; rewrite ?append_nil, ?append_cons;
    cbn [str_index String.length].
  - intros _. by rewrite bool_decide_eq_true_2.
  - case_bool_decide; [done|]. destruct (str_index c prefix); [done|].
    intros _. by rewrite IH.
Qed.

Lemma str_take_prefix (prefix rest : string) :
  str_take (String.length prefix) (prefix +:+ rest) = prefix.
Proof.
  induction prefix as [|a prefix IH]; rewrite ?append_nil, ?append_cons;
    cbn [str_take String.length]; [by destruct rest|by rewrite IH].
Qed.

Lemma str_drop_prefix (c : ascii) (prefix suffix : string) :
  str_drop (String.length prefix + 1) (prefix +:+ String c suffix) = suffix.
Proof.
  induction prefix as [|a prefix IH]; rewrite ?append_nil, ?append_cons;
    cbn [str_drop String.length Nat.add]; [by destruct suffix|done].
Qed.

Lemma findListBullet_scanned (σ : store) (started : bool) (last : option loc) (i : nat)
    (pre post : list item) (w : string) :
  scanned pre →
  findListBullet σ started last i (pre ++ Text w :: post)
  = if (scanState σ started last pre).1
    then Some ((i + length pre)%nat, w, (scanState σ started last pre).2)
    else None.
Proof.
  intros Hpre. revert started last i.
  induction Hpre as [|x pre Hx _ IH]; intros started last i.
  - cbn. by replace (i + 0)%nat with i by lia.
  - destruct x as [v|c|e|f]; try done; cbn [app findListBullet scanState length];
      rewrite IH; by replace (S i + length pre)%nat with (i + S (length pre))%nat by lia.
Qed.

Lemma scanState_app (σ : store) (started : bool) (last : option loc) (l1 l2 : list item) :
  scanState σ started last (l1 ++ l2)
  = scanState σ (scanState σ started last l1).1 (scanState σ started last l1).2 l2.
Proof.
  revert started last. induction l1 as [|x l1 IH]; intros started last; [done|].
  destruct x; cbn [app scanState]; apply IH.
Qed.

Lemma scanState_started (σ : store) (last : option loc) (l : list item) :
  (scanState σ true last l).1 = true.
Proof.
  revert last. induction l as [|x l IH]; intros last; [done|].
  destruct x; cbn [scanState]; rewrite ?orb_true_r; apply IH.
Qed.

Lemma scanState_last_starts (σ : store) (started : bool) (last : option loc) (l : list item) :
  controlStarts l → (scanState σ started last l).2 = last.
Proof.
  intros Hl. revert started. induction Hl as [|x l Hx _ IH]; intros started; [done|].
  destruct x; try done. cbn [scanState]. apply IH.
Qed.

Lemma scanState_listItem (σ : store) (c f : loc) (p1 p2 p3 : list item) :
  isListItemStart (controlField σ c) = true →
  controlStarts p3 →
  scanState σ false None (p1 ++ ControlStart c :: p2 ++ FormatChange f :: p3) = (true, Some f).
Proof.
  intros Hc Hp3.
  rewrite scanState_app. cbn [scanState]. rewrite Hc. cbn [orb].
  rewrite scanState_app. cbn [scanState].
  rewrite (surjective_pairing (scanState _ _ _ p3)).
  rewrite (scanState_last_starts σ _ _ p3) by done. f_equal.
  rewrite scanState_started. apply scanState_started.
Qed.

Lemma leadingControlEnd_scanned (pre post : list item) (w : string) :
  scanned pre → leadingControlEnd (pre ++ Text w :: post) = None.
Proof.
  induction 1 as [|x pre Hx _ IH]; [done|].
  destruct x; try done. cbn. by rewrite IH.
Qed.

Lemma pageNumberPass_inv (fields fields3 : list item) (σ σ3 : store) :
  pageNumberPass fields σ = Ok (fields3, σ3) →
  fields3 = fields ∧ (σ3 = σ ∨ ∃ page, σ3 = setPageNumbers page fields σ).
Proof.
  unfold pageNumberPass. destruct (firstPageNumber fields σ) as [page|]; [|done].
  rewrite bind_Ok. case_bool_decide; intros [= <- <-]; eauto.
Qed.

Lemma pageNumberPass_keep (fields fields3 : list item) (σ σ3 : store) (f : loc) (k : string) :
  pageNumberPass fields σ = Ok (fields3, σ3) → k ≠ "page-number" →
  formatField σ3 f !! k = formatField σ f !! k.
Proof.
  intros [_ [->|[page ->]]]%pageNumberPass_inv Hk; [done|]. by apply setPageNumbers_keep.
Qed.

(** C4: take a stream that begins with controlStart and formatChange
    commands only, among them the controlStart of a list item at its start
    and, later, a formatChange that is the last one before the first text
    string.  The first pass leaves such a stream alone.  When the text
    holds a space, the second pass replaces the text by what follows the
    first space, and stores what precedes it as line-prefix, with
    line-prefix_speakAlways true, in the format field of that
    formatChange, changing nothing else; both entries and the shortened
    text are still there in what [getTextWithFields] returns.  When the
    text holds no space, the pass returns stream and store as they are,
    without raising. *)
Theorem listBullet_extraction (σ : store) (c f : loc) (p1 p2 p3 post : list item) (w : string) :
  scanned p1 → scanned p2 → controlStarts p3 →
  controlField σ c !! "role" = Some Role_LISTITEM →
  controlField σ c !! "_startOfNode" = Some (PBool true) →
  let pre := p1 ++ ControlStart c :: p2 ++ FormatChange f :: p3 in
  let fields := pre ++ Text w :: post in
  emptyLeadingControlFix fields σ = (fields, σ)
  ∧ (∀ prefix suffix : string,
       w = prefix +:+ String " " suffix → str_index " " prefix = None →
       let σ2 := formatField_setitem f "line-prefix_speakAlways" (PBool true)
                   (formatField_setitem f "line-prefix" (PStr prefix) σ) in
       listBulletPass fields σ = Ok (pre ++ Text suffix :: post, σ2)
       ∧ formatField σ2 f !! "line-prefix" = Some (PStr prefix)
       ∧ formatField σ2 f !! "line-prefix_speakAlways" = Some (PBool true)
       ∧ (∀ out σ', getTextWithFields fields σ = Ok (out, σ') →
            (∃ pendingRemoves, out = removePending pendingRemoves (pre ++ Text suffix :: post))
            ∧ formatField σ' f !! "line-prefix" = Some (PStr prefix)
            ∧ formatField σ' f !! "line-prefix_speakAlways" = Some (PBool true)))
  ∧ (str_index " " w = None → listBulletPass fields σ = Ok (fields, σ)).
Proof.
  intros Hp1 Hp2 Hp3 Hrole Hstart pre fields.
  assert (Hc : isListItemStart (controlField σ c) = true).
  { unfold isListItemStart, dict_get. by rewrite Hrole, Hstart. }
  assert (Hpre : scanned pre).
  { unfold pre, scanned. rewrite Forall_app, Forall_cons, Forall_app, Forall_cons.
    split_and!; try done. eapply Forall_impl; [exact Hp3|]. by intros []. }
  assert (Hfind : findListBullet σ false None 0 fields = Some (length pre, w, Some f)).
  { unfold fields. rewrite findListBullet_scanned by done.
    unfold pre at 1 3. by rewrite scanState_listItem. }
  assert (H1 : emptyLeadingControlFix fields σ = (fields, σ)).
  { unfold emptyLeadingControlFix, fields. by rewrite leadingControlEnd_scanned. }
  split_and!; [done| |].
  - intros prefix suffix -> Hprefix σ2.
    assert (H2 : listBulletPass fields σ = Ok (pre ++ Text suffix :: post, σ2)).
    { unfold listBulletPass. rewrite Hfind, (str_index_prefix _ _ _ Hprefix).
      rewrite str_take_prefix, str_drop_prefix. unfold fields.
      replace (length pre) with (length pre + 0)%nat by lia.
      by rewrite insert_app_r. }
    assert (Hk1 : formatField σ2 f !! "line-prefix" = Some (PStr prefix)).
    { unfold σ2. rewrite !formatField_setitem_lookup.
      rewrite decide_False by (by intros [_ [=]]). by rewrite decide_True. }
    assert (Hk2 : formatField σ2 f !! "line-prefix_speakAlways" = Some (PBool true)).
    { unfold σ2. rewrite !formatField_setitem_lookup. by rewrite decide_True. }
    split_and!; try done.
    intros out σ' H.
    apply getTextWithFields_inv in H as (fields2 & σ2' & fields3 & σ3 & H2' & H3 & H4).
    2:{ unfold fields. by destruct pre. }
    rewrite H1 in H2'. cbn [fst snd] in H2'. rewrite H2 in H2'.
    injection H2' as <- <-.
    pose proof (pageNumberPass_keep _ _ _ _ f "line-prefix" H3) as Hp1'.
    pose proof (pageNumberPass_keep _ _ _ _ f "line-prefix_speakAlways" H3) as Hp2'.
    apply pageNumberPass_inv in H3 as [-> _].
    apply removeDuplicates_inv in H4 as (-> & p & _ & ->).
    split_and!; [by exists p| |].
    + rewrite Hp1' by (by intros [=]). done.
    + rewrite Hp2' by (by intros [=]). done.
  - intros Hw. unfold listBulletPass. by rewrite Hfind, Hw.
Qed.

Lemma listBullet_extraction_witness :
  listBulletPass (listItemFields "* item one") listItemStore
  = Ok (listItemFields "item one",
        formatField_setitem 0 "line-prefix_speakAlways" (PBool true)
          (formatField_setitem 0 "line-prefix" (PStr "*") listItemStore))
  ∧ listBulletPass (listItemFields "NoSpace") listItemStore
    = Ok (listItemFields "NoSpace", listItemStore).
Proof.
  assert (Hnil : scanned []) by constructor.
  assert (Hnil' : controlStarts []) by constructor.
  split.
  - refine (proj1 (proj1 (proj2 (listBullet_extraction listItemStore 0%nat 0%nat [] [] []
                       [ControlEnd (Some 0%nat)] "* item one" Hnil Hnil Hnil' _ _))
                     "*" "item one" _ _)); reflexivity.
  - refine (proj2 (proj2 (listBullet_extraction listItemStore 0%nat 0%nat [] [] []
                       [ControlEnd (Some 0%nat)] "NoSpace" Hnil Hnil Hnil' _ _)) _); reflexivity.
Defined.

(** *** Duplicate-ancestor removal *)

Lemma py_eq_refl (v : pyval) : py_eq v v = true.
Proof. destruct v; cbn; try done; by apply bool_decide_eq_true_2. Qed.

Lemma haveRuntimeIDs_cons (σ : store) (x : item) (l : list item) :
  haveRuntimeIDs σ (x :: l) → haveRuntimeIDs σ l.
Proof. intros H c Hc. apply H. by apply list_elem_of_further. Qed.

Lemma noRuntimeID_cons (σ : store) (X : pyval) (x : item) (l : list item) :
  noRuntimeID σ X (x :: l) → noRuntimeID σ X l.
Proof. intros H c Y Hc. apply H. by apply list_elem_of_further. Qed.

(** The scan comes back when every controlStart has a runtime id. *)
Lemma scanDuplicates_Ok (σ : store) (seen : list pyval) (pending : list loc)
    (fields : list item) :
  haveRuntimeIDs σ fields → ∃ p, scanDuplicates σ seen pending fields = Ok p.
Proof.
  revert seen pending. induction fields as [|x fields IH]; intros seen pending H.
  - by exists pending.
  - pose proof (haveRuntimeIDs_cons _ _ _ H) as H'.
    destruct x as [w|c|e|f]; cbn [scanDuplicates]; try (by apply IH).
    destruct (H c) as [X ->]; [apply list_elem_of_here|].
    destruct (negb (py_truthy X)); [by apply IH|].
    destruct (existsb (py_eq X) seen); by apply IH.
Qed.

(** A field already marked stays marked. *)
Lemma scanDuplicates_pending (σ : store) (seen : list pyval) (pending p : list loc)
    (fields : list item) (c : loc) :
  scanDuplicates σ seen pending fields = Ok p → c ∈ pending → c ∈ p.
Proof.
  revert seen pending. induction fields as [|x fields IH]; intros seen pending H Hc.
  - by injection H as <-.
  - destruct x as [w|d|e|f]; cbn [scanDuplicates] in H; try (by eapply IH).
    destruct (controlField σ d !! "runtimeID") as [X|]; [|done].
    destruct (negb (py_truthy X)); [by eapply IH|].
    destruct (existsb (py_eq X) seen); [|by eapply IH].
    eapply IH; [done|]. apply elem_of_app. by left.
Qed.

(** Only fields of controlStart commands of the stream get marked. *)
Lemma scanDuplicates_marked (σ : store) (seen : list pyval) (pending p : list loc)
    (fields : list item) (c : loc) :
  scanDuplicates σ seen pending fields = Ok p → c ∈ p →
  c ∈ pending ∨ ControlStart c ∈ fields.
Proof.
  revert seen pending. induction fields as [|x fields IH]; intros seen pending H Hc.
  - injection H as <-. by left.
  - assert (Hrec : ∀ seen', scanDuplicates σ seen' pending fields = Ok p →
                            c ∈ pending ∨ ControlStart c ∈ x :: fields).
    { intros seen' H'. destruct (IH _ _ H' Hc); [by left|right; by apply list_elem_of_further]. }
    destruct x as [w|d|e|f]; cbn [scanDuplicates] in H; try (by eapply Hrec).
    destruct (controlField σ d !! "runtimeID") as [X|]; [|done].
    destruct (negb (py_truthy X)); [by eapply Hrec|].
    destruct (existsb (py_eq X) seen); [|by eapply Hrec].
    destruct (IH _ _ H Hc) as [[Hp|Hd%list_elem_of_singleton]%elem_of_app|Hf].
    + by left.
    + subst d. right. apply list_elem_of_here.
    + right. by apply list_elem_of_further.
Qed.

(** Within a run of controlStart commands a runtime id once seen marks
    the next controlStart that has it. *)
Lemma scanDuplicates_run (σ : store) (X : pyval) (b : loc) (mid post : list item)
    (seen : list pyval) (pending p : list loc) :
  controlStarts mid → runtimeID σ b X → py_truthy X = true →
  existsb (py_eq X) seen = true →
  scanDuplicates σ seen pending (mid ++ ControlStart b :: post) = Ok p → b ∈ p.
Proof.
  intros Hmid Hb HX. revert seen pending.
  induction Hmid as [|x mid Hx _ IH]; intros seen pending Hseen H.
  - cbn [app scanDuplicates] in H. rewrite Hb, HX, Hseen in H. cbn [negb] in H.
    eapply scanDuplicates_pending; [done|]. apply elem_of_app. right. apply list_elem_of_here.
  - destruct x as [w|d|e|f]; try done. cbn [app scanDuplicates] in H.
    destruct (controlField σ d !! "runtimeID") as [Y|]; [|done].
    destruct (negb (py_truthy Y)); [by eapply IH|].
    destruct (existsb (py_eq Y) seen); [by eapply IH|].
    eapply IH; [|done]. cbn [existsb]. by rewrite Hseen, orb_true_r.
Qed.

Lemma scanDuplicates_second (σ : store) (X : pyval) (a b : loc) (pre mid post : list item)
    (seen : list pyval) (pending p : list loc) :
  controlStarts mid → runtimeID σ a X → runtimeID σ b X → py_truthy X = true →
  scanDuplicates σ seen pending (pre ++ ControlStart a :: mid ++ ControlStart b :: post) = Ok p →
  b ∈ p.
Proof.
  intros Hmid Ha Hb HX. revert seen pending.
  induction pre as [|x pre IH]; intros seen pending H.
  - cbn [app scanDuplicates] in H. rewrite Ha, HX in H. cbn [negb] in H.
    destruct (existsb (py_eq X) seen) eqn:Hseen.
    + by eapply scanDuplicates_run.
    + eapply scanDuplicates_run; [done..| |done]. cbn [existsb]. by rewrite py_eq_refl.
  - destruct x as [w|d|e|f]; cbn [app scanDuplicates] in H; try (by eapply IH).
    destruct (controlField σ d !! "runtimeID") as [Y|]; [|done].
    destruct (negb (py_truthy Y)); [by eapply IH|].
    destruct (existsb (py_eq Y) seen); by eapply IH.
Qed.

Section NotMarked.
(** A field [t] with runtime id [X] is not marked by a scan that never
    meets [X] in its seen set when it reaches a controlStart with that
    id. *)
Context (σ : store) (X : pyval) (t b : loc) (post : list item).
Hypothesis Ht : runtimeID σ t X.
Hypothesis Hb : runtimeID σ b X.
Hypothesis HX : py_truthy X = true.
Hypothesis Hpost : noRuntimeID σ X post.

Lemma noRuntimeID_target (l : list item) : noRuntimeID σ X l → ControlStart t ∉ l.
Proof. intros Hl Hin. specialize (Hl t X Hin Ht). by rewrite py_eq_refl in Hl. Qed.

Lemma scanDuplicates_unseen (seen : list pyval) (pending p : list loc) :
  existsb (py_eq X) seen = false → t ∉ pending →
  scanDuplicates σ seen pending (ControlStart b :: post) = Ok p → t ∉ p.
Proof.
  intros Hseen Hpending H Hin. cbn [scanDuplicates] in H.
  rewrite Hb, HX, Hseen in H. cbn [negb] in H.
  destruct (scanDuplicates_marked _ _ _ _ _ _ H Hin) as [?|Hp]; [done|].
  by apply (noRuntimeID_target post).
Qed.

Lemma scanDuplicates_other_ids (l : list item) (seen : list pyval) (pending p : list loc) :
  noRuntimeID σ X l → existsb (py_eq X) seen = false → t ∉ pending →
  scanDuplicates σ seen pending (l ++ ControlStart b :: post) = Ok p → t ∉ p.
Proof.
  revert seen pending. induction l as [|x l IH]; intros seen pending Hl Hseen Hpending H.
  - by eapply scanDuplicates_unseen.
  - pose proof (noRuntimeID_cons _ _ _ _ Hl) as Hl'.
    destruct x as [w|c|e|f]; cbn [app scanDuplicates] in H; try (by eapply (IH [])).
    destruct (controlField σ c !! "runtimeID") as [Y|] eqn:HY; [|done].
    assert (HXY : py_eq X Y = false) by (eapply Hl; [apply list_elem_of_here|done]).
    assert (Hct : c ≠ t).
    { intros ->. unfold runtimeID in Ht. rewrite Ht in HY. injection HY as <-.
      by rewrite py_eq_refl in HXY. }
    destruct (negb (py_truthy Y)); [by eapply IH|].
    destruct (existsb (py_eq Y) seen).
    + eapply IH; [done|done| |done].
      rewrite elem_of_app, list_elem_of_singleton. by intros [?|?].
    + eapply IH; [done| |done|done]. cbn [existsb]. by rewrite HXY, Hseen.
Qed.

Lemma scanDuplicates_broken_run (l : list item) (seen : list pyval) (pending p : list loc) :
  noRuntimeID σ X l → Exists (λ x, isControlStart x = false) l → t ∉ pending →
  scanDuplicates σ seen pending (l ++ ControlStart b :: post) = Ok p → t ∉ p.
Proof.
  intros Hl Hex. revert seen pending Hl.
  induction Hex as [x l Hx|x l Hex IH]; intros seen pending Hl Hpending H.
  - pose proof (noRuntimeID_cons _ _ _ _ Hl) as Hl'.
    destruct x as [w|c|e|f]; try done; cbn [app scanDuplicates] in H;
      by eapply (scanDuplicates_other_ids l []).
  - pose proof (noRuntimeID_cons _ _ _ _ Hl) as Hl'.
    destruct x as [w|c|e|f]; cbn [app scanDuplicates] in H; try (by eapply IH).
    destruct (controlField σ c !! "runtimeID") as [Y|] eqn:HY; [|done].
    assert (Hct : c ≠ t).
    { intros ->. unfold runtimeID in Ht. rewrite Ht in HY. injection HY as <-.
      assert (py_eq X X = false) by (eapply Hl; [apply list_elem_of_here|done]).
      by rewrite py_eq_refl in *. }
    destruct (negb (py_truthy Y)); [by eapply IH|].
    destruct (existsb (py_eq Y) seen); [|by eapply IH].
    eapply IH; [done| |done].
    rewrite elem_of_app, list_elem_of_singleton. by intros [?|?].
Qed.

Lemma scanDuplicates_apart (a : loc) (pre mid : list item) (seen : list pyval)
    (pending p : list loc) :
  runtimeID σ a X →
  noRuntimeID σ X pre → noRuntimeID σ X mid →
  Exists (λ x, isControlStart x = false) mid →
  existsb (py_eq X) seen = false → t ∉ pending →
  scanDuplicates σ seen pending (pre ++ ControlStart a :: mid ++ ControlStart b :: post) = Ok p →
  t ∉ p.
Proof.
  intros Ha Hpre Hmid Hex. revert seen pending Hpre.
  induction pre as [|x pre IH]; intros seen pending Hpre Hseen Hpending H.
  - cbn [app scanDuplicates] in H. rewrite Ha, HX, Hseen in H. cbn [negb] in H.
    by eapply (scanDuplicates_broken_run mid).
  - pose proof (noRuntimeID_cons _ _ _ _ Hpre) as Hpre'.
    destruct x as [w|c|e|f]; cbn [app scanDuplicates] in H; try (by eapply (IH [])).
    destruct (controlField σ c !! "runtimeID") as [Y|] eqn:HY; [|done].
    assert (HXY : py_eq X Y = false) by (eapply Hpre; [apply list_elem_of_here|done]).
    assert (Hct : c ≠ t).
    { intros ->. unfold runtimeID in Ht. rewrite Ht in HY. injection HY as <-.
      by rewrite py_eq_refl in HXY. }
    destruct (negb (py_truthy Y)); [by eapply IH|].
    destruct (existsb (py_eq Y) seen).
    + eapply IH; [done|done| |done].
      rewrite elem_of_app, list_elem_of_singleton. by intros [?|?].
    + eapply IH; [done| |done|done]. cbn [existsb]. by rewrite HXY, Hseen.
Qed.
End NotMarked.

Lemma removePending_removed (pendingRemoves : list loc) (fields : list item) (x : item) :
  isPendingRemove pendingRemoves x = true → x ∉ removePending pendingRemoves fields.
Proof.
  intros Hx. induction fields as [|y fields IH]; [apply not_elem_of_nil|].
  cbn [removePending]. destruct (isPendingRemove pendingRemoves y) eqn:Hy; [done|].
  apply not_elem_of_cons. split; [|done]. intros ->. by rewrite Hx in Hy.
Qed.

Lemma isPendingRemove_true (pendingRemoves : list loc) (x : item) :
  isPendingRemove pendingRemoves x = true →
  ∃ c, (x = ControlStart c ∨ x = ControlEnd (Some c)) ∧ c ∈ pendingRemoves.
Proof.
  destruct x as [w|c|[c|]|f]; cbn; try done; intros H%bool_decide_eq_true_1; eauto.
Qed.

(** C6, as stated, fails in its parenthesis: with the repeated
    controlStart goes the controlEnd that carries the same control field,
    which is not a controlStart. *)
Lemma removeDuplicates_controlEnd_counterexample :
  getTextWithFields nestedFields nestedStore
  = Ok ([ControlStart 0; FormatChange 0; Text "cell"; ControlEnd (Some 0%nat)], nestedStore)
  ∧ removeDuplicates nestedFields nestedStore
    = Ok ([ControlStart 0; FormatChange 0; Text "cell"; ControlEnd (Some 0%nat)], nestedStore)
  ∧ ControlEnd (Some 1%nat) ∈ nestedFields
  ∧ ControlEnd (Some 1%nat)
      ∉ [ControlStart 0; FormatChange 0; Text "cell"; ControlEnd (Some 0%nat)].
Proof.
  split_and!.
  - vm_compute. reflexivity.
  - vm_compute. reflexivity.
  - do 4 apply list_elem_of_further. apply list_elem_of_here.
  - intros H. repeat (apply elem_of_cons in H as [H|H]; [discriminate H|]).
    by apply elem_of_nil in H.
Qed.

(** C6 (amended): in a stream whose controlStart commands all have a
    runtime id entry, take two controlStart commands with the same
    non-empty runtime id.  The fourth pass comes back with the stream
    minus the commands that carry a marked control field, the store
    untouched, and
    - when only controlStart commands lie between the two, the second one
      is not in the result;
    - every field that is dropped is a controlStart, or a controlEnd
      carrying the control field of a controlStart of the stream that is
      dropped as well; text and formatChange fields are never dropped;
    - when a field that is not a controlStart lies between the two and no
      other controlStart of the stream has that runtime id, both stay. *)
Theorem removeDuplicates_spec (σ : store) (pre mid post : list item) (a b : loc) (X : pyval) :
  let fields := pre ++ ControlStart a :: mid ++ ControlStart b :: post in
  runtimeID σ a X → runtimeID σ b X → py_truthy X = true →
  haveRuntimeIDs σ fields →
  ∃ pendingRemoves,
    let out := removePending pendingRemoves fields in
    removeDuplicates fields σ = Ok (out, σ)
    ∧ (controlStarts mid → ControlStart b ∉ out)
    ∧ (∀ x, x ∈ fields → x ∉ out →
         ∃ c, (x = ControlStart c ∨ x = ControlEnd (Some c))
              ∧ ControlStart c ∈ fields ∧ ControlStart c ∉ out)
    ∧ (Exists (λ x, isControlStart x = false) mid →
       noRuntimeID σ X (pre ++ mid ++ post) →
       ControlStart a ∈ out ∧ ControlStart b ∈ out).
Proof.
  intros fields Ha Hb HX Hids.
  destruct (scanDuplicates_Ok σ [] [] fields Hids) as [p Hp].
  exists p. cbv zeta. split_and!.
  - unfold removeDuplicates. by rewrite Hp, bind_Ok.
  - intros Hmid. apply removePending_removed. cbn.
    apply bool_decide_eq_true_2.
    exact (scanDuplicates_second σ X a b pre mid post [] [] p Hmid Ha Hb HX Hp).
  - intros x Hx Hout.
    destruct (isPendingRemove p x) eqn:Hrem.
    2:{ exfalso. apply Hout. by apply removePending_kept. }
    apply isPendingRemove_true in Hrem as (c & Hc & Hin).
    exists c. split_and!; [done| |].
    + destruct (scanDuplicates_marked _ _ _ _ _ _ Hp Hin) as [H|H]; [|done].
      by apply elem_of_nil in H.
    + apply removePending_removed. cbn. by apply bool_decide_eq_true_2.
  - intros Hex Hno.
    assert (Hpre : noRuntimeID σ X pre).
    { intros c Y Hc. apply Hno. apply elem_of_app. by left. }
    assert (Hmid : noRuntimeID σ X mid).
    { intros c Y Hc. apply Hno. rewrite !elem_of_app. right. by left. }
    assert (Hpost : noRuntimeID σ X post).
    { intros c Y Hc. apply Hno. rewrite !elem_of_app. right. by right. }
    assert (Hkeep : ∀ t, runtimeID σ t X → ControlStart t ∈ fields →
                         ControlStart t ∈ removePending p fields).
    { intros t Ht Hin. apply removePending_kept; [done|]. cbn.
      apply bool_decide_eq_false_2.
      eapply (scanDuplicates_apart σ X t b post Ht Hb HX Hpost a pre mid [] []); try done.
      apply not_elem_of_nil. }
    split; apply Hkeep; try done; unfold fields.
    + apply elem_of_app. right. apply list_elem_of_here.
    + apply elem_of_app. right. apply list_elem_of_further.
      apply elem_of_app. right. apply list_elem_of_here.
Qed.

Lemma removeDuplicates_spec_witness :
  ∃ pendingRemoves,
    removeDuplicates nestedFields nestedStore
    = Ok (removePending pendingRemoves nestedFields, nestedStore)
    ∧ ControlStart 1 ∉ removePending pendingRemoves nestedFields.
Proof.
  destruct (removeDuplicates_spec nestedStore [] [] (skipn 2 nestedFields) 0%nat 1%nat
              (PTuple [42; 9])) as (p & Hrun & Hsecond & _).
  - reflexivity.
  - reflexivity.
  - reflexivity.
  - intros c Hc. cbn in Hc.
    repeat (apply elem_of_cons in Hc as [Hc|Hc];
            [first [discriminate Hc | injection Hc as ->; by eexists]|]).
    by apply elem_of_nil in Hc.
  - exists p. split; [exact Hrun|]. apply Hsecond. constructor.
Defined.

(** *** When [getTextWithFields] raises *)

Lemma leadingControlEnd_Some (fields : list item) (i : nat) :
  leadingControlEnd fields = Some i →
  ∃ starts e rest, fields = starts ++ ControlEnd e :: rest ∧ controlStarts starts
                   ∧ i = length starts.
Proof.
  revert i. induction fields as [|x fields IH]; intros i H; [done|].
  destruct x as [w|c|e|f]; cbn in H; try done.
  - destruct (leadingControlEnd fields) as [j|]; [|done]. injection H as <-.
    destruct (IH j eq_refl) as (starts & e & rest & -> & Hs & ->).
    exists (ControlStart c :: starts), e, rest. split_and!; [done|by constructor|done].
  - injection H as <-. exists [], e, fields. split_and!; [done|constructor|done].
Qed.

Lemma emptyLeadingControlFix_cases (fields : list item) (σ : store) :
  (leadingControlEnd fields = None ∧ emptyLeadingControlFix fields σ = (fields, σ))
  ∨ ∃ starts e rest,
      fields = starts ++ ControlEnd e :: rest ∧ controlStarts starts
      ∧ emptyLeadingControlFix fields σ
        = (starts ++ FormatChange (newFormatField σ) :: Text EmptyString :: ControlEnd e :: rest,
           Store (controlFields σ) (<[newFormatField σ := ∅]> (formatFields σ))).
Proof.
  destruct (leadingControlEnd fields) as [i|] eqn:Hi.
  - right. apply leadingControlEnd_Some in Hi as (starts & e & rest & -> & Hs & _).
    exists starts, e, rest. split_and!; [done..|]. by apply emptyLeadingControlFix_end.
  - left. split; [done|]. unfold emptyLeadingControlFix. by rewrite Hi.
Qed.

Lemma emptyLeadingControlFix_leading (fields : list item) (σ : store) :
  leadingControlEnd (emptyLeadingControlFix fields σ).1 = None.
Proof.
  destruct (emptyLeadingControlFix_cases fields σ)
    as [[Hn ->]|(starts & e & rest & -> & Hs & ->)]; [done|].
  by apply leadingControlEnd_content.
Qed.

Lemma emptyLeadingControlFix_controlStart (fields : list item) (σ : store) (c : loc) :
  ControlStart c ∈ (emptyLeadingControlFix fields σ).1 ↔ ControlStart c ∈ fields.
Proof.
  destruct (emptyLeadingControlFix_cases fields σ)
    as [[Hn ->]|(starts & e & rest & -> & Hs & ->)]; [done|].
  cbn [fst]. rewrite !elem_of_app, !elem_of_cons. intuition discriminate.
Qed.

Lemma formatBeforeText_mono (fields : list item) :
  formatBeforeText false fields = true → formatBeforeText true fields = true.
Proof. induction fields as [|x fields IH]; [done|]. destruct x; cbn; auto. done. Qed.

Lemma formatBeforeText_starts (seen : bool) (starts rest : list item) :
  controlStarts starts →
  formatBeforeText seen (starts ++ rest) = formatBeforeText seen rest.
Proof. induction 1 as [|x starts Hx _ IH]; [done|]. by destruct x. Qed.

Lemma emptyLeadingControlFix_formatBeforeText (fields : list item) (σ : store) :
  formatBeforeText false fields = true →
  formatBeforeText false (emptyLeadingControlFix fields σ).1 = true.
Proof.
  destruct (emptyLeadingControlFix_cases fields σ)
    as [[Hn ->]|(starts & e & rest & -> & Hs & ->)]; [done|].
  cbn [fst]. rewrite !formatBeforeText_starts by done. cbn.
  apply formatBeforeText_mono.
Qed.

(** With a formatChange before every text string the second loop never
    reaches a text string with [lastFormatField] still [None]. *)
Lemma findListBullet_lastFormatField (σ : store) (started : bool) (last : option loc) (i : nat)
    (fields : list item) (index : nat) (w : string) (last' : option loc) :
  formatBeforeText (bool_decide (is_Some last)) fields = true →
  findListBullet σ started last i fields = Some (index, w, last') → is_Some last'.
Proof.
  revert started last i. induction fields as [|x fields IH]; intros started last i Hf H; [done|].
  destruct x as [v|c|e|f]; cbn in Hf, H.
  - destruct started; [|done]. injection H as <- <- <-.
    apply andb_true_iff in Hf as [Hl _]. by apply bool_decide_eq_true_1 in Hl.
  - by eapply IH.
  - done.
  - eapply (IH _ (Some f)); [|done]. by rewrite bool_decide_eq_true_2.
Qed.

Lemma listBulletPass_Ok (fields : list item) (σ : store) :
  formatBeforeText false fields = true →
  ∃ fields2 σ2, listBulletPass fields σ = Ok (fields2, σ2).
Proof.
  intros Hf. unfold listBulletPass.
  destruct (findListBullet σ false None 0 fields) as [[[index w] last]|] eqn:Hfind; [|eauto].
  destruct (str_index " " w); [|eauto].
  apply findListBullet_lastFormatField in Hfind as [f ->]; [eauto|].
  by rewrite bool_decide_eq_false_2 by (by intros [? ?]).
Qed.

(** The second pass changes at most one text string into another. *)
Lemma listBulletPass_shape (fields fields2 : list item) (σ σ2 : store) :
  listBulletPass fields σ = Ok (fields2, σ2) →
  fields2 = fields
  ∨ ∃ pre w w' post, fields = pre ++ Text w :: post ∧ fields2 = pre ++ Text w' :: post.
Proof.
  intros [[-> _]|(index & w & sp & f & Hfind & _ & -> & _)]%listBulletPass_inv; [by left|].
  right. apply findListBullet_Some in Hfind as (pre & post & -> & -> & _).
  exists pre, w, (str_drop (sp + 1) w), post. split; [done|].
  cbn [Nat.add]. replace (length pre) with (length pre + 0)%nat by lia.
  by rewrite insert_app_r.
Qed.

Lemma leadingControlEnd_text (pre post : list item) (w w' : string) :
  leadingControlEnd (pre ++ Text w :: post) = leadingControlEnd (pre ++ Text w' :: post).
Proof.
  induction pre as [|x pre IH]; [done|]. destruct x; cbn; try done. by rewrite IH.
Qed.

Lemma formatBeforeText_text (seen : bool) (pre post : list item) (w w' : string) :
  formatBeforeText seen (pre ++ Text w :: post) = formatBeforeText seen (pre ++ Text w' :: post).
Proof.
  revert seen. induction pre as [|x pre IH]; intros seen; [done|].
  destruct x; cbn; try done. by rewrite IH.
Qed.

Lemma controlStart_text (pre post : list item) (w w' : string) (c : loc) :
  ControlStart c ∈ pre ++ Text w :: post ↔ ControlStart c ∈ pre ++ Text w' :: post.
Proof. rewrite !elem_of_app, !elem_of_cons. intuition discriminate. Qed.

Lemma listBulletPass_leading (fields fields2 : list item) (σ σ2 : store) :
  listBulletPass fields σ = Ok (fields2, σ2) →
  leadingControlEnd fields2 = leadingControlEnd fields.
Proof.
  intros [->|(pre & w & w' & post & -> & ->)]%listBulletPass_shape; [done|].
  apply leadingControlEnd_text.
Qed.

Lemma listBulletPass_formatBeforeText (fields fields2 : list item) (σ σ2 : store) :
  listBulletPass fields σ = Ok (fields2, σ2) →
  formatBeforeText false fields2 = formatBeforeText false fields.
Proof.
  intros [->|(pre & w & w' & post & -> & ->)]%listBulletPass_shape; [done|].
  apply formatBeforeText_text.
Qed.

Lemma listBulletPass_controlStart (fields fields2 : list item) (σ σ2 : store) (c : loc) :
  listBulletPass fields σ = Ok (fields2, σ2) →
  ControlStart c ∈ fields2 ↔ ControlStart c ∈ fields.
Proof.
  intros [->|(pre & w & w' & post & -> & ->)]%listBulletPass_shape; [done|].
  apply controlStart_text.
Qed.

Lemma listBulletPass_nonempty (fields fields2 : list item) (σ σ2 : store) :
  listBulletPass fields σ = Ok (fields2, σ2) → fields ≠ [] → fields2 ≠ [].
Proof.
  intros [->|(pre & w & w' & post & -> & ->)]%listBulletPass_shape; [done|].
  intros _. by destruct pre.
Qed.

Lemma emptyLeadingControlFix_nonempty (fields : list item) (σ : store) :
  fields ≠ [] → (emptyLeadingControlFix fields σ).1 ≠ [].
Proof.
  destruct (emptyLeadingControlFix_cases fields σ)
    as [[Hn ->]|(starts & e & rest & -> & Hs & ->)]; [done|].
  intros _. by destruct starts.
Qed.

Lemma firstPageNumber_Ok (fields : list item) (σ : store) :
  fields ≠ [] → leadingControlEnd fields = None → formatBeforeText false fields = true →
  ∃ page, firstPageNumber fields σ = Ok page.
Proof. destruct fields as [|[w|c|e|f] fields]; cbn; try done; eauto. Qed.

Lemma pageNumberPass_controlFields (fields fields3 : list item) (σ σ3 : store) :
  pageNumberPass fields σ = Ok (fields3, σ3) → controlFields σ3 = controlFields σ.
Proof.
  intros [_ [->|[page ->]]]%pageNumberPass_inv; [done|]. apply setPageNumbers_controlFields.
Qed.

Lemma haveRuntimeIDs_ext (σ σ' : store) (fields fields' : list item) :
  controlFields σ' = controlFields σ →
  (∀ c, ControlStart c ∈ fields' → ControlStart c ∈ fields) →
  haveRuntimeIDs σ fields → haveRuntimeIDs σ' fields'.
Proof.
  intros Hc Hsub H c Hin. unfold controlField. rewrite Hc. by apply H, Hsub.
Qed.

(** C2, as stated, fails: a stream that starts with a text string raises
    [AttributeError] where the third pass reads [fields[0].field]; a text
    string with a space in a list item that has no formatChange before it
    raises [TypeError] where the second pass writes the line prefix; and a
    controlStart without a runtime id raises [KeyError] in the fourth. *)
Lemma getTextWithFields_raises_counterexample :
  getTextWithFields [Text "abc"] plainStore = Raise AttributeError
  ∧ getTextWithFields [ControlStart 0; Text "1. one"] bareListItemStore = Raise TypeError
  ∧ getTextWithFields [ControlStart 0; FormatChange 0; Text "abc"] plainStore = Raise KeyError.
Proof. split_and!; vm_compute; reflexivity. Qed.

(** C2 (amended): the empty stream is returned at once, unchanged.  A
    stream in which every text string comes after some formatChange and
    every controlStart has a runtime id entry goes through the four passes
    without an exception. *)
Theorem getTextWithFields_returns (fields : list item) (σ : store) :
  getTextWithFields [] σ = Ok ([], σ)
  ∧ (formatBeforeText false fields = true → haveRuntimeIDs σ fields →
     ∃ out σ', getTextWithFields fields σ = Ok (out, σ')).
Proof.
  split; [done|]. intros Hf Hids.
  unfold getTextWithFields. case_bool_decide; [eauto|].
  assert (Hne : fields ≠ []) by (by destruct fields).
  pose proof (emptyLeadingControlFix_leading fields σ) as Hl1.
  pose proof (emptyLeadingControlFix_formatBeforeText fields σ Hf) as Hf1.
  pose proof (emptyLeadingControlFix_nonempty fields σ Hne) as Hne1.
  pose proof (emptyLeadingControlFix_controlFields fields σ) as Hc1.
  pose proof (emptyLeadingControlFix_controlStart fields σ) as Hs1.
  destruct (emptyLeadingControlFix fields σ) as [fields1 σ1]. cbn [fst snd] in *.
  destruct (listBulletPass_Ok fields1 σ1 Hf1) as (fields2 & σ2 & H2).
  rewrite H2, bind_Ok. cbv beta iota.
  destruct (firstPageNumber_Ok fields2 σ2) as [page Hpage].
  { by eapply listBulletPass_nonempty. }
  { by rewrite (listBulletPass_leading _ _ _ _ H2). }
  { by rewrite (listBulletPass_formatBeforeText _ _ _ _ H2). }
  assert (∃ σ3, pageNumberPass fields2 σ2 = Ok (fields2, σ3)) as [σ3 H3].
  { unfold pageNumberPass. rewrite Hpage, bind_Ok. case_bool_decide; eauto. }
  rewrite H3, bind_Ok. cbv beta iota.
  destruct (scanDuplicates_Ok σ3 [] [] fields2) as [p Hp].
  { apply (haveRuntimeIDs_ext σ σ3 fields fields2); [|by intros c Hc; apply Hs1, (listBulletPass_controlStart _ _ _ _ c H2)|done].
    rewrite (pageNumberPass_controlFields _ _ _ _ H3).
    by rewrite (listBulletPass_controlFields _ _ _ _ H2). }
  unfold removeDuplicates. rewrite Hp, bind_Ok. eauto.
Qed.

Lemma getTextWithFields_returns_witness :
  ∃ out σ', getTextWithFields nestedFields nestedStore = Ok (out, σ').
Proof.
  apply (getTextWithFields_returns nestedFields nestedStore).
  - reflexivity.
  - intros c Hc. cbn in Hc.
    repeat (apply elem_of_cons in Hc as [Hc|Hc];
            [first [discriminate Hc | injection Hc as ->; by eexists]|]).
    by apply elem_of_nil in Hc.
Defined.

(** *** A second application *)

Lemma controlStartFields_elem (fields : list item) (c : loc) :
  c ∈ controlStartFields fields ↔ ControlStart c ∈ fields.
Proof.
  unfold controlStartFields. rewrite list_elem_of_omap. split.
  - intros ([w|d|e|f] & Hin & Heq); try done. by injection Heq as ->.
  - intros Hin. by exists (ControlStart c).
Qed.

Lemma controlStartFields_app (l1 l2 : list item) :
  controlStartFields (l1 ++ l2) = controlStartFields l1 ++ controlStartFields l2.
Proof. apply omap_app. Qed.

Lemma emptyLeadingControlFix_controlStartFields (fields : list item) (σ : store) :
  controlStartFields (emptyLeadingControlFix fields σ).1 = controlStartFields fields.
Proof.
  destruct (emptyLeadingControlFix_cases fields σ)
    as [[Hn ->]|(starts & e & rest & -> & Hs & ->)]; [done|].
  cbn [fst]. by rewrite !controlStartFields_app.
Qed.

Lemma listBulletPass_controlStartFields (fields fields2 : list item) (σ σ2 : store) :
  listBulletPass fields σ = Ok (fields2, σ2) →
  controlStartFields fields2 = controlStartFields fields.
Proof.
  intros [->|(pre & w & w' & post & -> & ->)]%listBulletPass_shape; [done|].
  by rewrite !controlStartFields_app.
Qed.

Lemma leadingControlEnd_removePending (pendingRemoves : list loc) (fields : list item) :
  leadingControlEnd fields = None →
  leadingControlEnd (removePending pendingRemoves fields) = None.
Proof.
  induction fields as [|x fields IH]; [done|].
  destruct x as [w|c|e|f]; cbn [leadingControlEnd removePending isPendingRemove]; try done.
  intros H. destruct (leadingControlEnd fields); [done|].
  case_bool_decide; [by apply IH|]. cbn. by rewrite IH.
Qed.

(** The first controlStart of a stream is marked only when its control
    field comes again in a later controlStart. *)
Lemma scanDuplicates_first (σ : store) (c : loc) (rest : list item) (p : list loc) :
  scanDuplicates σ [] [] (ControlStart c :: rest) = Ok p → c ∈ p → ControlStart c ∈ rest.
Proof.
  cbn [scanDuplicates]. destruct (controlField σ c !! "runtimeID") as [X|]; [|done].
  cbn [existsb]. intros H Hin.
  assert (∃ seen, scanDuplicates σ seen [] rest = Ok p) as [seen Hscan].
  { destruct (negb (py_truthy X)); eauto. }
  destruct (scanDuplicates_marked _ _ _ _ _ _ Hscan Hin) as [Hnil|?]; [|done].
  by apply elem_of_nil in Hnil.
Qed.

Lemma setPageNumbers_held (page : pyval) (fields : list item) (σ : store) (f : loc) :
  (∃ d, formatFields σ !! f = Some d ∧ d !! "page-number" = Some page) →
  ∃ d, formatFields (setPageNumbers page fields σ) !! f = Some d
       ∧ d !! "page-number" = Some page.
Proof.
  revert σ. induction fields as [|x fields IH]; intros σ Hσ; [done|].
  destruct x as [w|c|e|g]; cbn [setPageNumbers]; apply IH; try done.
  unfold formatField_setitem. cbn. destruct (decide (g = f)) as [->|Hg].
  - rewrite lookup_insert_eq. eexists. split; [done|]. apply lookup_insert_eq.
  - by rewrite lookup_insert_ne.
Qed.

Lemma setPageNumbers_allocated (page : pyval) (fields : list item) (σ : store) (f : loc) :
  FormatChange f ∈ fields →
  ∃ d, formatFields (setPageNumbers page fields σ) !! f = Some d
       ∧ d !! "page-number" = Some page.
Proof.
  revert σ. induction fields as [|x fields IH]; intros σ Hf.
  - by apply elem_of_nil in Hf.
  - apply elem_of_cons in Hf as [<-|Hf].
    + cbn [setPageNumbers]. apply setPageNumbers_held.
      unfold formatField_setitem. cbn. rewrite lookup_insert_eq.
      eexists. split; [done|]. apply lookup_insert_eq.
    + destruct x as [w|c|e|g]; cbn [setPageNumbers]; by apply IH.
Qed.

Lemma setPageNumbers_id (page : pyval) (fields : list item) (σ : store) :
  (∀ f, FormatChange f ∈ fields →
        ∃ d, formatFields σ !! f = Some d ∧ d !! "page-number" = Some page) →
  setPageNumbers page fields σ = σ.
Proof.
  induction fields as [|x fields IH]; intros H; [done|].
  assert (H' : ∀ f, FormatChange f ∈ fields →
                    ∃ d, formatFields σ !! f = Some d ∧ d !! "page-number" = Some page).
  { intros f Hf. apply H. by apply list_elem_of_further. }
  destruct x as [w|c|e|g]; cbn [setPageNumbers]; try (by apply IH).
  destruct (H g) as (d & Hd & Hpage); [apply list_elem_of_here|].
  replace (formatField_setitem g "page-number" page σ) with σ; [by apply IH|].
  destruct σ as [cs fs]. unfold formatField_setitem, formatField. cbn in *. f_equal.
  rewrite (lookup_total_correct _ _ _ Hd).
  rewrite (insert_id d) by done. by rewrite insert_id.
Qed.

(** The page number the third pass reads from the stream it is given is
    the one it reads again from the stream [getTextWithFields] returns. *)
Lemma firstPageNumber_again (fields2 : list item) (σ2 : store) (page : pyval) (p : list loc) :
  leadingControlEnd fields2 = None →
  NoDup (controlStartFields fields2) →
  firstPageNumber fields2 σ2 = Ok page →
  scanDuplicates (if bool_decide (page = PNone) then σ2 else setPageNumbers page fields2 σ2)
    [] [] fields2 = Ok p →
  removePending p fields2 ≠ [] →
  firstPageNumber (removePending p fields2)
    (if bool_decide (page = PNone) then σ2 else setPageNumbers page fields2 σ2) = Ok page.
Proof.
  intros Hl Hnd Hpage Hp Hne.
  destruct fields2 as [|[w|c|e|f] rest2]; try done.
  - (* the stream starts with a controlStart, which stays *)
    assert (Hc : c ∉ p).
    { intros Hin. apply scanDuplicates_first in Hp; [|done].
      cbn in Hnd. apply NoDup_cons in Hnd as [Hnd _].
      by apply Hnd, controlStartFields_elem. }
    cbn [removePending isPendingRemove]. rewrite bool_decide_eq_false_2 by done.
    cbn [firstPageNumber] in *. injection Hpage as <-. f_equal.
    case_bool_decide; [done|].
    unfold controlField. by rewrite setPageNumbers_controlFields.
  - (* the stream starts with a formatChange *)
    cbn [removePending isPendingRemove firstPageNumber] in *. injection Hpage as <-.
    f_equal. case_bool_decide as Hnone; [done|].
    unfold dict_get at 1. rewrite setPageNumbers_page by apply list_elem_of_here. done.
Qed.

(** C1, as stated, fails: on the stream that the first application
    returns for a list item, the second pass splits the text at its next
    space. *)
Lemma getTextWithFields_twice_counterexample :
  ∃ σ' σ'',
    getTextWithFields (listItemFields "* item one") listItemStore
    = Ok (listItemFields "item one", σ')
    ∧ getTextWithFields (listItemFields "item one") σ' = Ok (listItemFields "one", σ'')
    ∧ formatField σ' 0%nat !! "line-prefix" = Some (PStr "*")
    ∧ formatField σ'' 0%nat !! "line-prefix" = Some (PStr "item")
    ∧ listItemFields "one" ≠ listItemFields "item one".
Proof.
  eexists _, _. split_and!.
  - vm_compute. reflexivity.
  - vm_compute. reflexivity.
  - vm_compute. reflexivity.
  - vm_compute. reflexivity.
  - discriminate.
Qed.

(** C1 (amended): let [getTextWithFields] return a stream and a store for
    a stream in which no control field is carried by two controlStart
    commands.  If on that result the list-bullet pass finds nothing to
    split and the duplicate scan marks nothing, then a second application
    returns the same stream and the same store: the first pass inserts
    nothing and the third rewrites every page number to the value it
    already has. *)
Theorem getTextWithFields_settled (fields out : list item) (σ σ' : store) :
  getTextWithFields fields σ = Ok (out, σ') →
  NoDup (controlStartFields fields) →
  listBulletPass out σ' = Ok (out, σ') →
  scanDuplicates σ' [] [] out = Ok [] →
  getTextWithFields out σ' = Ok (out, σ').
Proof.
  intros Hrun Hnd Hbullet Hscan.
  destruct fields as [|x0 fields0] eqn:Hfields; [by injection Hrun as <- <-|].
  rewrite <- Hfields in *. assert (Hne : fields ≠ []) by (by rewrite Hfields).
  apply getTextWithFields_inv in Hrun as (fields2 & σ2 & fields3 & σ3 & H2 & H3 & H4);
    [|done].
  pose proof (listBulletPass_leading _ _ _ _ H2) as Hl2.
  rewrite emptyLeadingControlFix_leading in Hl2.
  pose proof (listBulletPass_controlStartFields _ _ _ _ H2) as Hcs2.
  rewrite emptyLeadingControlFix_controlStartFields in Hcs2.
  rewrite <- Hcs2 in Hnd.
  unfold pageNumberPass in H3.
  destruct (firstPageNumber fields2 σ2) as [page|] eqn:Hpage; [|done].
  rewrite bind_Ok in H3.
  assert (Hσ3 : fields3 = fields2
                ∧ σ3 = if bool_decide (page = PNone) then σ2
                       else setPageNumbers page fields2 σ2).
  { by case_bool_decide; injection H3 as <- <-. }
  destruct Hσ3 as [-> Hσ3]. clear H3.
  apply removeDuplicates_inv in H4 as (-> & p & Hp & ->).
  destruct (decide (removePending p fields2 = [])) as [Heq|Hout].
  { by rewrite Heq. }
  unfold getTextWithFields.
  rewrite bool_decide_eq_false_2 by (by destruct (removePending p fields2)).
  unfold emptyLeadingControlFix.
  rewrite leadingControlEnd_removePending by done.
  rewrite Hbullet, bind_Ok. cbv beta iota.
  assert (H3' : pageNumberPass (removePending p fields2) σ3
                = Ok (removePending p fields2, σ3)).
  { unfold pageNumberPass. rewrite Hσ3 in Hp |- *.
    rewrite (firstPageNumber_again fields2 σ2 page p) by done.
    rewrite bind_Ok. case_bool_decide as Hnone; [done|].
    rewrite setPageNumbers_id; [done|].
    intros f Hf. apply setPageNumbers_allocated. by eapply removePending_elem. }
  rewrite H3', bind_Ok. cbv beta iota.
  unfold removeDuplicates. rewrite Hscan, bind_Ok. by rewrite removePending_nil.
Qed.

Lemma getTextWithFields_settled_witness :
  getTextWithFields
    [ControlStart 0; FormatChange 0; Text "cell"; ControlEnd (Some 0%nat)] nestedStore
  = Ok ([ControlStart 0; FormatChange 0; Text "cell"; ControlEnd (Some 0%nat)], nestedStore).
Proof.
  apply (getTextWithFields_settled nestedFields _ nestedStore).
  - vm_compute. reflexivity.
  - vm_compute. repeat constructor; intros H;
      repeat (apply elem_of_cons in H as [H|H]; [discriminate H|]); by apply elem_of_nil in H.
  - vm_compute. reflexivity.
  - vm_compute. reflexivity.
Defined.

(** The other two conditions of [getTextWithFields_settled] are needed as
    well.  Removing an empty duplicate joins two runs of controlStart
    commands, so that the scan of a second application marks a
    controlStart that the first one kept. *)
Example getTextWithFields_twice_duplicates :
  ∃ out σ' out2 σ'',
    getTextWithFields repeatedFields repeatedStore = Ok (out, σ')
    ∧ getTextWithFields out σ' = Ok (out2, σ'')
    ∧ ControlStart 3 ∈ out ∧ ControlStart 3 ∉ out2.
Proof.
  eexists _, _, _, _. split_and!.
  - vm_compute. reflexivity.
  - vm_compute. reflexivity.
  - do 4 apply list_elem_of_further. apply list_elem_of_here.
  - intros H. repeat (apply elem_of_cons in H as [H|H]; [discriminate H|]).
    by apply elem_of_nil in H.
Qed.

(** And when one control field is carried by two controlStart commands
    at the head of the stream, both go, and a second application reads the
    page number from another first field. *)
Example getTextWithFields_twice_shared_field :
  ∃ out σ' σ'',
    getTextWithFields sharedFieldFields sharedFieldStore = Ok (out, σ')
    ∧ getTextWithFields out σ' = Ok (out, σ'')
    ∧ formatField σ' 0%nat !! "page-number" = Some (PStr "3")
    ∧ formatField σ'' 0%nat !! "page-number" = Some (PStr "5").
Proof. eexists _, _, _. split_and!; vm_compute; reflexivity. Qed.
